(** * pipeline_craft: the pandas cleaning template

    A shallow embedding of
    [transformation/to_silver/cleaning_template_pandas.py]:
    [standardize_column_names], [clean_dataframe] with its seven nested
    steps, and the properties the specification states about them.

    Conventions of the embedding.
    - A Python [str] is a Rocq [string]; its characters are the code
      points 0..255.
    - A pandas column is a typed [Series]; the missing marker
      (None / NaN / NaT) is [None] inside the column.  Columns of pandas'
      categorical extension type and object columns that hold values other
      than [str] are outside the data model.
    - float64 values are exact rationals: medians, quantiles and the two
      frequency ratios are computed without rounding, and there is no
      infinity.  For tables of fewer than 2^53 rows the comparisons
      [ratio > 0.7] and [ratio < 0.01] have the same outcome in binary64;
      [0/0] is NaN there and compares false.  The median and the
      quantiles of binary64 can differ from the exact ones in the last
      place.
    - int64 values are integers without a bound: overflow, and the uint64
      columns [pd.to_numeric] makes of integers from 2^63 on, are outside
      the data model.
    - [pd.to_numeric] and [pd.to_datetime] on text are an interface
      ([Parsers]); the general theorems hold for every implementation of
      it, and the examples are evaluated with [Reference.parsers]. *)

From Stdlib Require Import ZArith QArith Qround Ascii String List Lia.
From Stdlib Require Import DecimalString DecimalNat DecimalFacts.
From stdpp Require Import gmap strings list.

Open Scope string_scope.

(** ** Python strings *)

Module PyStr.

Definition code (c : ascii) : nat := nat_of_ascii c.

Definition between (lo hi : nat) (c : ascii) : bool :=
  (lo <=? code c)%nat && (code c <=? hi)%nat.

Definition is_digit (c : ascii) : bool := between 48 57 c.
Definition is_ascii_lower (c : ascii) : bool := between 97 122 c.
Definition is_underscore (c : ascii) : bool := (code c =? 95)%nat.

(** [str.isupper] on one character of the range 0..255. *)
Definition is_upper (c : ascii) : bool :=
  between 65 90 c || between 192 214 c || between 216 222 c.

(** [str.lower]: in this range every cased capital is 32 below its small
    letter. *)
Definition lower_char (c : ascii) : ascii :=
  if is_upper c then ascii_of_nat (code c + 32) else c.

(** [str.isspace], which is also what [str.strip()] removes and what [\s]
    matches in a [str] pattern. *)
Definition is_space (c : ascii) : bool :=
  between 9 13 c || between 28 32 c || (code c =? 133)%nat || (code c =? 160)%nat.

(** [\w] in a [str] pattern: [str.isalnum] or the underscore. *)
Definition is_word (c : ascii) : bool :=
  is_digit c || between 65 90 c || is_ascii_lower c || is_underscore c
  || (code c =? 170)%nat || (code c =? 178)%nat || (code c =? 179)%nat
  || (code c =? 181)%nat || (code c =? 185)%nat || (code c =? 186)%nat
  || between 188 190 c || between 192 214 c || between 216 246 c
  || between 248 255 c.

Fixpoint map (f : ascii -> ascii) (s : string) : string :=
  match s with
  | EmptyString => EmptyString
  | String c r => String (f c) (map f r)
  end.

Fixpoint filter (p : ascii -> bool) (s : string) : string :=
  match s with
  | EmptyString => EmptyString
  | String c r => if p c then String c (filter p r) else filter p r
  end.

Fixpoint forallb (p : ascii -> bool) (s : string) : bool :=
  match s with
  | EmptyString => true
  | String c r => p c && forallb p r
  end.

Definition is_empty (s : string) : bool :=
  match s with EmptyString => true | _ => false end.

(** [s.lstrip(chars)] and [s.rstrip(chars)], the set of characters given
    by a predicate. *)
Fixpoint lstrip (p : ascii -> bool) (s : string) : string :=
  match s with
  | EmptyString => EmptyString
  | String c r => if p c then lstrip p r else s
  end.

Fixpoint rstrip (p : ascii -> bool) (s : string) : string :=
  match s with
  | EmptyString => EmptyString
  | String c r =>
      let r' := rstrip p r in
      if p c && is_empty r' then EmptyString else String c r'
  end.

Definition strip (p : ascii -> bool) (s : string) : string :=
  rstrip p (lstrip p s).

Definition lower (s : string) : string := map lower_char s.

(** [str(n)] for a non-negative [int]. *)
Definition of_nat (n : nat) : string :=
  NilEmpty.string_of_uint (Nat.to_uint n).

End PyStr.

(** ** Column labels: [standardize_column_names], lines 108-126 *)

(** [re.sub(r'[^a-z0-9]', '_', col)] on one character. *)
Definition sub_non_alnum (c : ascii) : ascii :=
  if PyStr.is_ascii_lower c || PyStr.is_digit c then c else "_"%char.

(** [re.sub(r'_+', '_', col)]: each maximal run of underscores becomes one. *)
Fixpoint collapse_underscores (s : string) : string :=
  match s with
  | EmptyString => EmptyString
  | String c r =>
      if PyStr.is_underscore c
         && match r with String d _ => PyStr.is_underscore d | EmptyString => false end
      then collapse_underscores r
      else String c (collapse_underscores r)
  end.

Definition clean_column_name (col : string) : string :=
  let col := PyStr.lower col in
  let col := PyStr.map sub_non_alnum col in
  let col := PyStr.strip PyStr.is_underscore col in
  let col := collapse_underscores col in
  col.

(** The loop of lines 119-126 over [new_columns], the dict [seen] threaded
    through it; the result is the list after the in-place updates. *)
Fixpoint number_duplicates (seen : gmap string nat) (cols : list string)
  : list string :=
  match cols with
  | [] => []
  | col :: rest =>
      match seen !! col with
      | Some counter =>
          (col +:+ "_" +:+ PyStr.of_nat counter)
            :: number_duplicates (<[col := S counter]> seen) rest
      | None => col :: number_duplicates (<[col := 1%nat]> seen) rest
      end
  end.

Definition new_columns (cols : list string) : list string :=
  number_duplicates ∅ (List.map clean_column_name cols).

(** ** Tables *)

Inductive Series : Type :=
| Int64 (v : list Z)
| Float64 (v : list (option Q))
| Object (v : list (option string))
| Datetime64 (v : list (option Z))
| Bool (v : list bool).

Record Column : Type := { label : string; values : Series }.

(** [index] holds the row labels, [columns] the columns in order;
    [len(df)] is the length of the index, also when there is no column. *)
Record DataFrame : Type := { index : list nat; columns : list Column }.

Definition len (df : DataFrame) : nat := length (index df).
Definition labels (df : DataFrame) : list string := List.map label (columns df).

(** A call either returns or ends in an exception. *)
Inductive outcome (A : Type) : Type :=
| Returned (a : A)
| Raised.
Arguments Returned {A} a.
Arguments Raised {A}.

Definition is_object (s : Series) : bool :=
  match s with Object _ => true | _ => false end.

Definition isnull {A} (o : option A) : bool :=
  match o with None => true | Some _ => false end.

Definition count_true {A} (p : A -> bool) (l : list A) : nat :=
  length (List.filter p l).

(** [s.isnull().sum()]. *)
Definition isnull_sum (s : Series) : nat :=
  match s with
  | Int64 _ | Bool _ => 0
  | Float64 v => count_true isnull v
  | Object v => count_true isnull v
  | Datetime64 v => count_true isnull v
  end.

(** Boolean indexing [s[mask]]. *)
Fixpoint select {A} (mask : list bool) (l : list A) : list A :=
  match mask, l with
  | b :: mask', x :: l' => if b then x :: select mask' l' else select mask' l'
  | _, _ => []
  end.

Definition select_rows (mask : list bool) (s : Series) : Series :=
  match s with
  | Int64 v => Int64 (select mask v)
  | Float64 v => Float64 (select mask v)
  | Object v => Object (select mask v)
  | Datetime64 v => Datetime64 (select mask v)
  | Bool v => Bool (select mask v)
  end.

(** ** [drop_duplicates], line 155 *)

(** One cell of a row, as the row comparison sees it: every missing marker
    is the same value. *)
Inductive scalar : Type :=
| SNull
| SInt (z : Z)
| SFloat (q : Q)
| SStr (s : string)
| STime (t : Z)
| SBool (b : bool).

Definition scalar_eqb (a b : scalar) : bool :=
  match a, b with
  | SNull, SNull => true
  | SInt x, SInt y => (x =? y)%Z
  | SFloat x, SFloat y => Qeq_bool x y
  | SStr x, SStr y => String.eqb x y
  | STime x, STime y => (x =? y)%Z
  | SBool x, SBool y => Bool.eqb x y
  | _, _ => false
  end.

Definition opt_scalar {A} (f : A -> scalar) (o : option A) : scalar :=
  match o with Some a => f a | None => SNull end.

Definition cells (s : Series) : list scalar :=
  match s with
  | Int64 v => List.map SInt v
  | Float64 v => List.map (opt_scalar SFloat) v
  | Object v => List.map (opt_scalar SStr) v
  | Datetime64 v => List.map (opt_scalar STime) v
  | Bool v => List.map SBool v
  end.

Definition row (df : DataFrame) (i : nat) : list scalar :=
  List.map (fun c => nth i (cells (values c)) SNull) (columns df).

Fixpoint row_eqb (r1 r2 : list scalar) : bool :=
  match r1, r2 with
  | [], [] => true
  | a :: r1', b :: r2' => scalar_eqb a b && row_eqb r1' r2'
  | _, _ => false
  end.

(** [df.duplicated(keep='first')]: a row is marked when an equal row
    came before it. *)
Fixpoint duplicated_from (earlier rows : list (list scalar)) : list bool :=
  match rows with
  | [] => []
  | r :: rest => existsb (row_eqb r) earlier :: duplicated_from (r :: earlier) rest
  end.

Definition duplicated (df : DataFrame) : list bool :=
  duplicated_from [] (List.map (row df) (seq 0 (len df))).

(** [df.empty]: some axis has length 0. *)
Definition frame_empty (df : DataFrame) : bool :=
  (len df =? 0)%nat || (length (columns df) =? 0)%nat.

Definition map_values (f : Series -> Series) (df : DataFrame) : DataFrame :=
  {| index := index df;
     columns := List.map (fun c => {| label := label c; values := f (values c) |})
                         (columns df) |}.

(** pandas returns a copy of an empty frame and [df[~df.duplicated()]]
    otherwise. *)
Definition drop_duplicates (df : DataFrame) : DataFrame :=
  if frame_empty df then df
  else
    let keep := List.map negb (duplicated df) in
    {| index := select keep (index df);
       columns := columns (map_values (select_rows keep) df) |}.

(** ** [standardize_column_names], lines 104-129 *)

(** [df.columns = new_columns]: the labels are replaced position by
    position. *)
Fixpoint set_labels (names : list string) (cols : list Column) : list Column :=
  match names, cols with
  | n :: names', c :: cols' =>
      {| label := n; values := values c |} :: set_labels names' cols'
  | _, _ => []
  end.

Definition standardize_column_names (df : DataFrame) : DataFrame :=
  {| index := index df;
     columns := set_labels (new_columns (labels df)) (columns df) |}.

(** ** Column statistics *)

Fixpoint insert_sorted (x : Q) (l : list Q) : list Q :=
  match l with
  | [] => [x]
  | y :: r => if Qle_bool x y then x :: l else y :: insert_sorted x r
  end.

Definition sort_values (l : list Q) : list Q := List.fold_right insert_sorted [] l.

(** The non-missing values of a numeric column, as pandas' reductions see
    them ([skipna=True]). *)
Definition present {A} (v : list (option A)) : list A := omap id v.

Definition numeric_values (s : Series) : list Q :=
  match s with
  | Int64 v => List.map inject_Z v
  | Float64 v => present v
  | _ => []
  end.

(** [s.median()]: NaN ([None]) when there is no value. *)
Definition median (xs : list Q) : option Q :=
  let s := sort_values xs in
  let n := length s in
  if (n =? 0)%nat then None
  else if Nat.even n
       then Some (Qred ((nth (n / 2 - 1) s 0 + nth (n / 2) s 0) / 2)%Q)
       else Some (Qred (nth (n / 2) s 0%Q)).

(** [s.quantile(q)], linear interpolation between the two nearest ranks. *)
Definition quantile (q : Q) (xs : list Q) : option Q :=
  let s := sort_values xs in
  let n := length s in
  if (n =? 0)%nat then None
  else
    let pos := (q * inject_Z (Z.of_nat (n - 1)))%Q in
    let lo := Z.to_nat (Qfloor pos) in
    let frac := (pos - inject_Z (Qfloor pos))%Q in
    let a := nth lo s 0%Q in
    let b := nth (lo + 1) s a in
    Some (Qred (a + (b - a) * frac)%Q).

Definition count_of (x : string) (l : list string) : nat :=
  count_true (String.eqb x) l.

(** [s.mode()[0]]: the most frequent non-missing value, the smallest one
    when several are as frequent ([mode] returns them sorted). *)
Definition mode_first (l : list string) : option string :=
  List.fold_right
    (fun x best =>
       match best with
       | None => Some x
       | Some y =>
           if (count_of y l <? count_of x l)%nat
              || ((count_of x l =? count_of y l)%nat && String.ltb x y)
           then Some x else Some y
       end)
    None l.

Definition fillna {A} (value : A) (v : list (option A)) : list (option A) :=
  List.map (fun o => match o with None => Some value | Some _ => o end) v.

(** ** Step 2: [handle_missing_values], lines 159-172 *)

Definition fill_column (s : Series) : Series :=
  match s with
  | Float64 v =>
      match median (present v) with
      | Some m => Float64 (fillna m v)
      | None => Float64 v          (* [fillna(NaN)] fills nothing *)
      end
  | Object v =>
      match mode_first (present v) with
      | Some m => Object (fillna m v)
      | None => Object (fillna "Unknown" v)
      end
  | _ => s
  end.

Definition handle_missing_values (df : DataFrame) : DataFrame :=
  map_values fill_column df.

(** ** Step 3: [fix_data_types], lines 178-194 *)

(** What [pd.to_numeric] makes of one cell. *)
Inductive numeric : Type :=
| NInt (z : Z)
| NFloat (q : option Q).

(** The conversions of pandas that read text or round:
    - [parse_numeric s]: the number [pd.to_numeric] reads in the [str] [s],
      [None] when it raises;
    - [guess_datetime_format]: the format [pd.to_datetime] infers from the
      non-missing cells of a text column, and [parse_datetime fmt s]: the
      nanoseconds since the epoch it reads in [s] under that format, [None]
      when it raises;
    - [float_to_ns x]: the nanosecond count [pd.to_datetime] makes of the
      float [x], [None] when it is out of bounds. *)
Class Parsers : Type := {
  parse_numeric : string -> option numeric;
  datetime_format : Type;
  guess_datetime_format : list string -> datetime_format;
  parse_datetime : datetime_format -> string -> option Z;
  float_to_ns : Q -> option Z
}.

(** [all_some l]: every element is there. *)
Fixpoint all_some {A} (l : list (option A)) : option (list A) :=
  match l with
  | [] => Some []
  | None :: _ => None
  | Some a :: r =>
      match all_some r with Some r' => Some (a :: r') | None => None end
  end.

Definition as_int (n : numeric) : option Z :=
  match n with NInt z => Some z | NFloat _ => None end.

Definition as_float (n : numeric) : option Q :=
  match n with NInt z => Some (inject_Z z) | NFloat q => q end.

(** int64's smallest value is the bit pattern of NaT. *)
Definition ns_of_int (z : Z) : option Z :=
  if (z =? - 2 ^ 63)%Z then None else Some z.

Section Coercion.
Context `{Parsers}.

(** [pd.to_numeric(s)] on a text column; [None] is the exception.  A
    missing cell reads as NaN; the result is int64 when every cell read as
    an integer and float64 otherwise. *)
Definition to_numeric (v : list (option string)) : option Series :=
  match all_some (List.map (fun o => match o with
                                     | Some s => parse_numeric s
                                     | None => Some (NFloat None)
                                     end) v) with
  | None => None
  | Some ns =>
      match all_some (List.map as_int ns) with
      | Some zs => Some (Int64 zs)
      | None => Some (Float64 (List.map as_float ns))
      end
  end.

(** [pd.to_datetime(s)]; [None] is the exception.  Numbers are nanoseconds
    since the epoch; text is read under the one format guessed for the
    column. *)
Definition to_datetime (s : Series) : option Series :=
  match s with
  | Int64 v => Some (Datetime64 (List.map ns_of_int v))
  | Float64 v =>
      match all_some (List.map (fun o => match o with
                                         | Some x => option_map Some (float_to_ns x)
                                         | None => Some None
                                         end) v) with
      | Some ts => Some (Datetime64 ts)
      | None => None
      end
  | Object v =>
      let fmt := guess_datetime_format (present v) in
      match all_some (List.map (fun o => match o with
                                         | Some x => option_map Some (parse_datetime fmt x)
                                         | None => Some None
                                         end) v) with
      | Some ts => Some (Datetime64 ts)
      | None => None
      end
  | Datetime64 v => Some s
  | Bool _ => None
  end.

(** The body of the loop for one column: the second [try] follows the
    first whatever the first did. *)
Definition fix_column (s : Series) : Series :=
  if is_object s then
    let s1 := match s with
              | Object v => match to_numeric v with Some s' => s' | None => s end
              | _ => s
              end in
    let s2 := match to_datetime s1 with Some s' => s' | None => s1 end in
    s2
  else s.

(** With a repeated label [df[col]] is a DataFrame, not a Series:
    [df[col].dtype] at line 182 is an AttributeError, when no earlier
    statement of the call has raised already. *)
Definition fix_data_types (df : DataFrame) : outcome DataFrame :=
  if decide (NoDup (labels df)) then Returned (map_values fix_column df)
  else Raised.

End Coercion.

(** ** Step 4: [handle_outliers], lines 200-214 *)

(** [Q1 - 1.5 * IQR] and [Q3 + 1.5 * IQR]; NaN when the column has no
    value. *)
Definition bounds (xs : list Q) : option (Q * Q) :=
  match quantile (1 # 4) xs, quantile (3 # 4) xs with
  | Some Q1, Some Q3 =>
      let IQR := (Q3 - Q1)%Q in
      let lower_bound := Qred (Q1 - (3 # 2) * IQR)%Q in
      let upper_bound := Qred (Q3 + (3 # 2) * IQR)%Q in
      Some (lower_bound, upper_bound)
  | _, _ => None
  end.

(** [s.clip(lower, upper)] on one value: below [lower] it becomes [lower],
    above [upper] it becomes [upper]. *)
Definition clip (lower upper x : Q) : Q :=
  let x := if Qle_bool lower x then x else lower in
  if Qle_bool x upper then x else upper.

Definition is_integral (x : Q) : bool := (Z.pos (Qden (Qred x)) =? 1)%Z.

(** A NaN bound is no bound, so a column without a value is left as it is.
    An int64 column turns float64 when a bound that is not an integer is
    put into it. *)
Definition cap_column (s : Series) : Series :=
  match s with
  | Int64 v =>
      match bounds (numeric_values s) with
      | Some (lo, hi) =>
          let capped := List.map (fun z => clip lo hi (inject_Z z)) v in
          if List.forallb is_integral capped
          then Int64 (List.map (fun x => Qnum (Qred x)) capped)
          else Float64 (List.map Some capped)
      | None => s
      end
  | Float64 v =>
      match bounds (numeric_values s) with
      | Some (lo, hi) => Float64 (List.map (option_map (clip lo hi)) v)
      | None => s
      end
  | _ => s
  end.

Definition handle_outliers (df : DataFrame) : DataFrame :=
  map_values cap_column df.

(** ** Step 5: [clean_text_data], lines 220-240 *)

(** [astype(str)] on one cell of an object column; a missing cell is the
    float NaN, whose [str] is "nan".  No cell is missing when the step
    runs in [clean_dataframe]: the imputation has filled the text columns
    ([table_to_clean_text]). *)
Definition astype_str (o : option string) : string :=
  match o with Some s => s | None => "nan" end.

(** [re.sub(r'[^\w\s]', '', x)]. *)
Definition remove_special (x : string) : string :=
  PyStr.filter (fun c => PyStr.is_word c || PyStr.is_space c) x.

Definition clean_text (o : option string) : string :=
  let x := astype_str o in
  let x := PyStr.strip PyStr.is_space x in
  let x := PyStr.lower x in
  remove_special x.

Definition clean_text_column (s : Series) : Series :=
  match s with
  | Object v => Object (List.map (fun o => Some (clean_text o)) v)
  | _ => s
  end.

Definition clean_text_data (df : DataFrame) : DataFrame :=
  map_values clean_text_column df.

(** ** Step 6: [remove_sparse_columns], lines 246-249 *)

(** [count / len(df)]: NaN when the frame has no row. *)
Definition ratio (count total : nat) : option Q :=
  if (total =? 0)%nat then None
  else Some (Z.of_nat count # Pos.of_nat total).

(** Comparisons with NaN are false. *)
Definition ratio_gt (r : option Q) (threshold : Q) : bool :=
  match r with Some x => negb (Qle_bool x threshold) | None => false end.

Definition ratio_lt (r : option Q) (threshold : Q) : bool :=
  match r with Some x => negb (Qle_bool threshold x) | None => false end.

Definition sparse (df : DataFrame) (threshold : Q) (c : Column) : bool :=
  ratio_gt (ratio (isnull_sum (values c)) (len df)) threshold.

Definition columns_to_drop (df : DataFrame) (threshold : Q) : list string :=
  List.map label (List.filter (sparse df threshold) (columns df)).

(** [df.drop(columns=names)]: every column with one of the labels goes. *)
Definition drop_columns (df : DataFrame) (names : list string) : DataFrame :=
  {| index := index df;
     columns := List.filter (fun c => negb (bool_decide (label c ∈ names)))
                            (columns df) |}.

Definition remove_sparse_columns (df : DataFrame) (threshold : Q) : DataFrame :=
  drop_columns df (columns_to_drop df threshold).

(** ** Step 7: [standardize_categories], lines 255-271 *)

(** [value_counts[value_counts / len(df) < 0.01]] holds [x]. *)
Definition rare (total : nat) (vals : list string) (x : string) : bool :=
  ratio_lt (ratio (count_of x vals) total) (1 # 100).

Definition collapse_rare (total : nat) (s : Series) : Series :=
  match s with
  | Object v =>
      Object (List.map (fun o => match o with
                                 | Some x => if rare total (present v) x
                                             then Some "Other" else Some x
                                 | None => None
                                 end) v)
  | _ => s
  end.

Definition standardize_categories (df : DataFrame) : DataFrame :=
  map_values (collapse_rare (len df)) df.

(** ** [clean_dataframe], lines 147-275 *)

Section Pipeline.
Context `{Parsers}.

(** The table the call returns, as a function of the table it is given. *)
Definition clean_dataframe (df : DataFrame) : outcome DataFrame :=
  let df_clean := df in
  let df_clean := standardize_column_names df_clean in
  let df_clean := drop_duplicates df_clean in
  let df_clean := handle_missing_values df_clean in
  match fix_data_types df_clean with
  | Raised => Raised
  | Returned df_clean =>
      let df_clean := handle_outliers df_clean in
      let df_clean := clean_text_data df_clean in
      let df_clean := remove_sparse_columns df_clean (7 # 10) in
      let df_clean := standardize_categories df_clean in
      Returned df_clean
  end.

(** The working table when line 251 is reached. *)
Definition table_to_prune (df : DataFrame) : outcome DataFrame :=
  match fix_data_types
          (handle_missing_values (drop_duplicates (standardize_column_names df))) with
  | Raised => Raised
  | Returned t => Returned (clean_text_data (handle_outliers t))
  end.

(** The working table when line 242 is reached. *)
Definition table_to_clean (df : DataFrame) : outcome DataFrame :=
  match fix_data_types
          (handle_missing_values (drop_duplicates (standardize_column_names df))) with
  | Raised => Raised
  | Returned t => Returned (handle_outliers t)
  end.

(** The order of the steps as the specification words it: de-duplicate
    whole rows, normalize column names, impute missing values, coerce
    types, cap outliers, normalize text, prune sparse columns, collapse
    rare categories. *)
Definition steps_in_specified_order (df : DataFrame) : outcome DataFrame :=
  let t := drop_duplicates df in
  let t := standardize_column_names t in
  let t := handle_missing_values t in
  match fix_data_types t with
  | Raised => Raised
  | Returned t =>
      let t := handle_outliers t in
      let t := clean_text_data t in
      let t := remove_sparse_columns t (7 # 10) in
      let t := standardize_categories t in
      Returned t
  end.

End Pipeline.

(** ** The call on the heap

    [clean_dataframe] as the source runs it: DataFrames are objects on a
    heap, a variable holds a reference, [copy], [drop_duplicates] and
    [drop] build a new object, and the nested functions assign into the
    frame they are given and return it. *)

Module InPlace.

Definition ref : Type := nat.

(** A computation over the heap; the heap survives an exception. *)
Definition M (A : Type) : Type := list DataFrame -> list DataFrame * outcome A.

Definition ret {A} (a : A) : M A := fun h => (h, Returned a).

Definition raise {A} : M A := fun h => (h, Raised).

Definition bind {A B} (m : M A) (k : A -> M B) : M B :=
  fun h =>
    match m h with
    | (h', Returned a) => k a h'
    | (h', Raised) => (h', Raised)
    end.

Notation "'let!' x ':=' m 'in' k" := (bind m (fun x => k))
  (at level 10, x name, m at level 100, k at level 200).

(** The table-level steps, under names the definitions below do not hide. *)
Local Abbreviation relabel := standardize_column_names.
Local Abbreviation coerce := fix_data_types.

(** A new object. *)
Definition new (df : DataFrame) : M ref :=
  fun h => ((h ++ [df])%list, Returned (length h)).

Definition get (r : ref) : M DataFrame :=
  fun h => match h !! r with
           | Some df => (h, Returned df)
           | None => (h, Raised)
           end.

Definition put (r : ref) (df : DataFrame) : M ref :=
  fun h => (<[r := df]> h, Returned r).

(** [df.copy()]. *)
Definition copy (r : ref) : M ref := let! df := get r in new df.

(** A method that returns a new frame. *)
Definition method (f : DataFrame -> DataFrame) (r : ref) : M ref :=
  let! df := get r in new (f df).

(** A nested function that assigns into [df] and ends in [return df]. *)
Definition assign (f : DataFrame -> DataFrame) (r : ref) : M ref :=
  let! df := get r in put r (f df).

(** Lines 104-129: the copy gets the new labels. *)
Definition standardize_column_names (df : ref) : M ref :=
  let! df := copy df in
  assign relabel df.

Section Call.
Context `{Parsers}.

(** An exception leaves the loop of lines 179-193 half way; the frame it
    was assigning into is the call's own and is not seen again. *)
Definition fix_data_types (df : ref) : M ref :=
  let! t := get df in
  match coerce t with
  | Returned t' => put df t'
  | Raised => raise
  end.

Definition clean_dataframe (df : ref) : M ref :=
  let! df_clean := copy df in
  let! df_clean := standardize_column_names df_clean in
  let! df_clean := method drop_duplicates df_clean in
  let! df_clean := assign handle_missing_values df_clean in
  let! df_clean := fix_data_types df_clean in
  let! df_clean := assign handle_outliers df_clean in
  let! df_clean := assign clean_text_data df_clean in
  let! df_clean := method (fun t => remove_sparse_columns t (7 # 10)) df_clean in
  let! df_clean := assign standardize_categories df_clean in
  ret df_clean.

End Call.

End InPlace.

(** ** The call as the specification orders it

    The same statements on the same heap, in the order of the
    specification's words: the rows are de-duplicated before the columns
    are renamed. *)

Module AsSpecified.
Import InPlace.

Section Call.
Context `{Parsers}.

Definition clean_dataframe (df : ref) : M ref :=
  let! df_clean := copy df in
  let! df_clean := method drop_duplicates df_clean in
  let! df_clean := standardize_column_names df_clean in
  let! df_clean := assign handle_missing_values df_clean in
  let! df_clean := fix_data_types df_clean in
  let! df_clean := assign handle_outliers df_clean in
  let! df_clean := assign clean_text_data df_clean in
  let! df_clean := method (fun t => remove_sparse_columns t (7 # 10)) df_clean in
  let! df_clean := assign standardize_categories df_clean in
  ret df_clean.

End Call.

End AsSpecified.

(** ** A reference implementation of [Parsers]

    It reads the literals the examples use: decimal integers with an
    optional sign, and ISO dates [YYYY-MM-DD].  Other numeric and date
    notations that pandas accepts are not part of it. *)

Module Reference.

Fixpoint digits_value (acc : Z) (s : string) : option Z :=
  match s with
  | EmptyString => Some acc
  | String c r =>
      if PyStr.is_digit c
      then digits_value (10 * acc + Z.of_nat (PyStr.code c - 48)) r
      else None
  end.

Definition unsigned_literal (s : string) : option Z :=
  match s with
  | EmptyString => None
  | _ => digits_value 0 s
  end.

Definition int_literal (s : string) : option numeric :=
  match s with
  | String c r =>
      if Ascii.eqb c "-" then option_map (fun z => NInt (- z)) (unsigned_literal r)
      else if Ascii.eqb c "+" then option_map NInt (unsigned_literal r)
      else option_map NInt (unsigned_literal s)
  | EmptyString => None
  end.

Inductive format : Type := IsoDate | Unrecognised.

Definition leap (y : Z) : bool :=
  ((y mod 4 =? 0) && negb (y mod 100 =? 0) || (y mod 400 =? 0))%Z.

Definition days_in_month (y m : Z) : Z :=
  if (m =? 2)%Z then (if leap y then 29 else 28)
  else if ((m =? 4) || (m =? 6) || (m =? 9) || (m =? 11))%Z then 30 else 31.

(** Days from 1970-01-01 to the civil date [y-m-d]. *)
Definition days_from_civil (y m d : Z) : Z :=
  let y' := (if m <=? 2 then y - 1 else y)%Z in
  let era := (y' / 400)%Z in
  let yoe := (y' - era * 400)%Z in
  let doy := ((153 * (if m >? 2 then m - 3 else m + 9) + 2) / 5 + d - 1)%Z in
  let doe := (yoe * 365 + yoe / 4 - yoe / 100 + doy)%Z in
  (era * 146097 + doe - 719468)%Z.

Definition iso_date (s : string) : option Z :=
  match s with
  | String ya (String yb (String yc (String yd (String sep_a
      (String ma (String mb (String sep_b (String da (String db EmptyString))))))))) =>
      match digits_value 0 (String ya (String yb (String yc (String yd EmptyString)))),
            digits_value 0 (String ma (String mb EmptyString)),
            digits_value 0 (String da (String db EmptyString)) with
      | Some y, Some m, Some d =>
          if Ascii.eqb sep_a "-" && Ascii.eqb sep_b "-"
             && ((1 <=? m) && (m <=? 12) && (1 <=? d) && (d <=? days_in_month y m))%Z
          then Some (days_from_civil y m d * 86400 * 10 ^ 9)%Z
          else None
      | _, _, _ => None
      end
  | _ => None
  end.

Definition guess (present_cells : list string) : format :=
  match present_cells with
  | s :: _ => if isnull (iso_date s) then Unrecognised else IsoDate
  | [] => Unrecognised
  end.

Definition read (fmt : format) (s : string) : option Z :=
  match fmt with IsoDate => iso_date s | Unrecognised => None end.

(** Nanosecond counts within the int64 range, fractions cut off. *)
Definition truncate_ns (x : Q) : option Z :=
  let z := (Qnum x ÷ Z.pos (Qden x))%Z in
  if ((- 2 ^ 63 <? z) && (z <? 2 ^ 63))%Z then Some z else None.

#[export] Instance parsers : Parsers :=
  {| parse_numeric := int_literal;
     datetime_format := format;
     guess_datetime_format := guess;
     parse_datetime := read;
     float_to_ns := truncate_ns |}.

End Reference.

(** ** Predicates of the statements *)

(** How a string begins, ends, and whether two underscores meet in it. *)
Definition starts (p : ascii -> bool) (s : string) : bool :=
  match s with String c _ => p c | EmptyString => false end.

Fixpoint ends (p : ascii -> bool) (s : string) : bool :=
  match s with
  | EmptyString => false
  | String c r => if PyStr.is_empty r then p c else ends p r
  end.

Fixpoint doubled (s : string) : bool :=
  match s with
  | EmptyString => false
  | String c r => PyStr.is_underscore c && starts PyStr.is_underscore r || doubled r
  end.

Definition name_char (c : ascii) : bool :=
  PyStr.is_ascii_lower c || PyStr.is_digit c || PyStr.is_underscore c.

(** The shape of a cleaned label: small letters, digits and single
    underscores, none of them first or last. *)
Definition normal (s : string) : bool :=
  PyStr.forallb name_char s
  && negb (starts PyStr.is_underscore s)
  && negb (ends PyStr.is_underscore s)
  && negb (doubled s).

(** No capital, and nothing but word characters and whitespace. *)
Definition tidy_char (c : ascii) : bool :=
  negb (PyStr.is_upper c) && (PyStr.is_word c || PyStr.is_space c).

Definition tidy (s : string) : bool := PyStr.forallb tidy_char s.

(** What [remove_special] deletes. *)
Definition is_special (c : ascii) : bool := negb (PyStr.is_word c || PyStr.is_space c).

(** [s] is what the text cleaning makes of the text [x]: [u], which is [x]
    stripped and put in small letters, without its special characters.
    Such an [s] holds word characters and whitespace only, [lower] leaves
    it as it is, and it begins or ends with whitespace only where [u]
    began or ended with a character that was deleted. *)
Definition cleaned (x s : string) : Prop :=
  let u := PyStr.lower (PyStr.strip PyStr.is_space x) in
  s = remove_special u
  /\ PyStr.forallb (fun c => PyStr.is_word c || PyStr.is_space c) s = true
  /\ PyStr.lower s = s
  /\ (starts PyStr.is_space s = true -> starts is_special u = true)
  /\ (ends PyStr.is_space s = true -> ends is_special u = true).

Definition width (df : DataFrame) : nat := length (columns df).

(** The object [r] was made after the heap [h0]. *)
Definition owns (h0 h : list DataFrame) (r : InPlace.ref) : Prop :=
  length h0 <= r < length h.

(** The run [x] left the objects of [h0] as they were and ended like [o],
    the frame it returns being an object made during the run. *)
Definition returns (h0 : list DataFrame) (o : outcome DataFrame)
    (x : list DataFrame * outcome InPlace.ref) : Prop :=
  h0 `prefix_of` x.1
  /\ match o, x.2 with
     | Returned t, Returned r => owns h0 x.1 r /\ x.1 !! r = Some t
     | Raised, Raised => True
     | _, _ => False
     end.

(** ** Tables of the examples *)

Module Examples.

Definition column (name : string) (s : Series) : Column :=
  {| label := name; values := s |}.

(** The scenario of the specification. *)
Definition scenario : DataFrame :=
  {| index := [0; 1; 2; 3];
     columns := [column "A Col" (Float64 [Some 1%Q; Some 2%Q; None; Some 100%Q]);
                 column "Cat " (Object [Some "x"; Some "x"; Some "y"; None])] |}.

(** Text that reads as numbers. *)
Definition amounts : DataFrame :=
  {| index := [0; 1; 2];
     columns := [column "amount" (Object [Some "10"; Some "20"; Some "30"])] |}.

(** Three cells of four are missing in [colour]. *)
Definition colour : Column := column "colour" (Object [Some "red"; None; None; None]).

Definition mostly_missing : DataFrame :=
  {| index := [0; 1; 2; 3];
     columns := [colour; column "id" (Int64 [1; 2; 3; 4]%Z)] |}.

(** A float64 column without a value. *)
Definition score : Column := column "score" (Float64 [None; None]).

Definition no_score : DataFrame :=
  {| index := [0; 1]; columns := [score; column "id" (Int64 [1; 2]%Z)] |}.

(** The third label is what the loop makes of the second. *)
Definition colliding : DataFrame :=
  {| index := [0];
     columns := [column "a" (Int64 [1]%Z); column "a" (Int64 [2]%Z);
                 column "a_1" (Int64 [3]%Z)] |}.

Definition colliding_no_rows : DataFrame :=
  {| index := [];
     columns := [column "a" (Object []); column "a" (Object []);
                 column "a_1" (Object [])] |}.

(** Two labels without a letter or digit. *)
Definition unnamed : DataFrame :=
  {| index := [0];
     columns := [column "!" (Int64 [1]%Z); column "?" (Int64 [2]%Z)] |}.

Definition notes : DataFrame :=
  {| index := [0]; columns := [column "note" (Object [Some "foo !"])] |}.

(** An object column without a value. *)
Definition no_text : DataFrame :=
  {| index := [0; 1];
     columns := [column "tag" (Object [None; None]); column "id" (Int64 [1; 2]%Z)] |}.

(** One label without a letter or digit, and two that clean to "a". *)
Definition one_unnamed : DataFrame :=
  {| index := [0];
     columns := [column "!" (Int64 [1]%Z); column "a" (Int64 [2]%Z);
                 column "A" (Int64 [3]%Z)] |}.


End Examples.

(** ** Predicates of the further statements *)

(** A label that ends in an underscore and digits, as the labels the loop
    numbers do. *)
Fixpoint looks_numbered (s : string) : bool :=
  match s with
  | EmptyString => false
  | String c r =>
      PyStr.is_underscore c && negb (PyStr.is_empty r) && PyStr.forallb PyStr.is_digit r
      || looks_numbered r
  end.

(** [f"{col}_{counter}"]. *)
Definition numbered (col : string) (counter : nat) : string :=
  col +:+ "_" +:+ PyStr.of_nat counter.

Definition no_underscore (s : string) : bool :=
  PyStr.forallb (fun c => negb (PyStr.is_underscore c)) s.

(** The number the loop would put on [col] next. *)
Definition next_counter (seen : gmap string nat) (col : string) : nat :=
  match seen !! col with Some n => n | None => 1 end.

Definition series_len (s : Series) : nat := length (cells s).

(** Every column has one cell for each row label. *)
Definition rectangular (df : DataFrame) : Prop :=
  forall c, In c (columns df) -> series_len (values c) = len df.

Definition rows (df : DataFrame) : list (list scalar) :=
  List.map (row df) (seq 0 (len df)).

(** No row of [l] equals a row before it. *)
Fixpoint distinct_rows (l : list (list scalar)) : Prop :=
  match l with
  | [] => True
  | r :: rest => (forall x, In x rest -> row_eqb x r = false) /\ distinct_rows rest
  end.

(** ** [validate_data], lines 290-297 *)

Inductive dtype : Type :=
| dtype_int64 | dtype_float64 | dtype_object | dtype_datetime64 | dtype_bool.

Definition dtype_of (s : Series) : dtype :=
  match s with
  | Int64 _ => dtype_int64
  | Float64 _ => dtype_float64
  | Object _ => dtype_object
  | Datetime64 _ => dtype_datetime64
  | Bool _ => dtype_bool
  end.

Definition notnull (x : scalar) : bool := negb (scalar_eqb x SNull).

(** One of each value, the later of two equal ones. *)
Fixpoint distinct (l : list scalar) : list scalar :=
  match l with
  | [] => []
  | x :: r => if existsb (scalar_eqb x) r then distinct r else x :: distinct r
  end.

(** [s.nunique()]: the number of different values, the missing marker not
    counted. *)
Definition nunique (s : Series) : nat :=
  length (distinct (List.filter notnull (cells s))).

(** [df[col].nunique()]: a number when one column has the label, and one
    number for each column that has it otherwise. *)
Inductive unique_count : Type :=
| OneColumn (n : nat)
| SeveralColumns (ns : list nat).

Definition getitem_nunique (df : DataFrame) (col : string) : unique_count :=
  match List.filter (fun c => String.eqb (label c) col) (columns df) with
  | [c] => OneColumn (nunique (values c))
  | cs => SeveralColumns (List.map (fun c => nunique (values c)) cs)
  end.

(** A dict built from pairs in order: a later pair replaces an earlier one
    with the same key. *)
Definition to_dict {V} (items : list (string * V)) : gmap string V :=
  List.fold_left (fun d kv => <[kv.1 := kv.2]> d) items ∅.

Record Summary : Type := {
  total_rows : nat;
  missing_values : gmap string nat;
  data_types : gmap string dtype;
  unique_values : gmap string unique_count
}.

Definition validate_data (df : DataFrame) : Summary :=
  {| total_rows := len df;
     missing_values :=
       to_dict (List.map (fun c => (label c, isnull_sum (values c))) (columns df));
     data_types :=
       to_dict (List.map (fun c => (label c, dtype_of (values c))) (columns df));
     unique_values :=
       to_dict (List.map (fun c => (label c, getitem_nunique df (label c))) (columns df)) |}.



Module Samples.
Import Examples.

(** Rows 0 and 1 are equal. *)
Definition repeated : DataFrame :=
  {| index := [0; 1; 2];
     columns := [column "k" (Int64 [1; 1; 2]%Z);
                 column "v" (Object [Some "a"; Some "a"; Some "b"])] |}.

Definition readings : list (option Q) := [Some 1%Q; Some 2%Q; None; Some 100%Q].

(** Seven cells of ten are missing in [gaps]. *)
Definition gaps : Column :=
  column "gaps" (Float64 [None; None; None; None; None; None; None;
                          Some 1%Q; Some 2%Q; Some 3%Q]).

Definition seven_of_ten : DataFrame :=
  {| index := seq 0 10; columns := [gaps] |}.

Definition three_names : DataFrame :=
  {| index := [0];
     columns := [column "Name" (Int64 [1]%Z); column "name" (Int64 [2]%Z);
                 column "NAME " (Int64 [3]%Z)] |}.

(** What [clean_dataframe] makes of [scenario]. *)
Definition scenario_cleaned_table : DataFrame :=
  {| index := [0; 1; 2; 3];
     columns := [column "a_col" (Float64 [Some 1%Q; Some 2%Q; Some 2%Q; Some (509 # 8)]);
                 column "cat" (Object [Some "x"; Some "x"; Some "y"; Some "x"])] |}.

End Samples.
(** ** Facts about strings *)

Module PyStrFacts.
Import PyStr.

Lemma lstrip_id p s : starts p s = false -> lstrip p s = s.
Proof. destruct s as [|c r]; simpl; [reflexivity|]. intros ->. reflexivity. Qed.

Lemma rstrip_id p s : ends p s = false -> rstrip p s = s.
Proof.
  induction s as [|c r IH]; simpl; [reflexivity|].
  destruct r as [|d r']; simpl in *.
  - intros ->. reflexivity.
  - intros E. rewrite (IH E). simpl. rewrite andb_false_r. reflexivity.
Qed.

Lemma starts_lstrip p s : starts p (lstrip p s) = false.
Proof.
  induction s as [|c r IH]; simpl; [reflexivity|].
  destruct (p c) eqn:E; [exact IH | simpl; exact E].
Qed.

Lemma ends_rstrip p s : ends p (rstrip p s) = false.
Proof.
  induction s as [|c r IH]; simpl; [reflexivity|].
  destruct (p c) eqn:E, (rstrip p r) as [|d r'] eqn:R; simpl in *;
    try reflexivity; try exact E; exact IH.
Qed.

Lemma starts_rstrip p s : starts p s = false -> starts p (rstrip p s) = false.
Proof.
  destruct s as [|c r]; simpl; [reflexivity|]. intros E. rewrite E. simpl. exact E.
Qed.

Lemma forallb_lstrip q p s : forallb q s = true -> forallb q (lstrip p s) = true.
Proof.
  induction s as [|c r IH]; simpl; [reflexivity|].
  intros [Hc Hr]%andb_true_iff. destruct (p c); [auto|].
  simpl. rewrite Hc, Hr. reflexivity.
Qed.

Lemma forallb_rstrip q p s : forallb q s = true -> forallb q (rstrip p s) = true.
Proof.
  induction s as [|c r IH]; simpl; [reflexivity|].
  intros [Hc Hr]%andb_true_iff.
  destruct (p c && is_empty (rstrip p r)); [reflexivity|].
  simpl. rewrite Hc, (IH Hr). reflexivity.
Qed.

Lemma forallb_map q f s :
  (forall c, q (f c) = true) -> forallb q (map f s) = true.
Proof. intros Hf. induction s as [|c r IH]; simpl; [reflexivity|]. rewrite Hf, IH. reflexivity. Qed.

Lemma map_id_on q f s :
  (forall c, q c = true -> f c = c) -> forallb q s = true -> map f s = s.
Proof.
  intros Hf. induction s as [|c r IH]; simpl; [reflexivity|].
  intros [Hc Hr]%andb_true_iff. rewrite (Hf c Hc), (IH Hr). reflexivity.
Qed.

Lemma forallb_app q s t : forallb q (s +:+ t) = forallb q s && forallb q t.
Proof. induction s as [|c r IH]; simpl; [reflexivity|]. rewrite IH, andb_assoc. reflexivity. Qed.

Lemma forallb_weaken (q q' : ascii -> bool) s :
  (forall c, q c = true -> q' c = true) -> forallb q s = true -> forallb q' s = true.
Proof.
  intros Hq. induction s as [|c r IH]; simpl; [reflexivity|].
  intros [Hc Hr]%andb_true_iff. rewrite (Hq c Hc), (IH Hr). reflexivity.
Qed.

Lemma starts_app p s t : s <> EmptyString -> starts p (s +:+ t) = starts p s.
Proof. destruct s; [congruence | reflexivity]. Qed.

Lemma is_empty_app s t : is_empty (s +:+ t) = is_empty s && is_empty t.
Proof. destruct s; reflexivity. Qed.

Lemma ends_app p s t : t <> EmptyString -> ends p (s +:+ t) = ends p t.
Proof.
  intros Ht. induction s as [|c r IH]; simpl; [reflexivity|].
  rewrite is_empty_app. destruct t; [congruence|]. rewrite andb_false_r. exact IH.
Qed.

Lemma ends_forallb p q s :
  (forall c, q c = true -> p c = false) -> forallb q s = true -> ends p s = false.
Proof.
  intros Hq. induction s as [|c r IH]; simpl; [reflexivity|].
  intros [Hc Hr]%andb_true_iff. destruct (is_empty r); auto.
Qed.

(** The digits of a number. *)
Lemma string_of_uint_digits u : forallb is_digit (NilEmpty.string_of_uint u) = true.
Proof. induction u; simpl; auto. Qed.

Lemma of_nat_digits n : forallb is_digit (of_nat n) = true.
Proof. apply string_of_uint_digits. Qed.

Lemma of_nat_nonempty n : of_nat n <> EmptyString.
Proof.
  unfold of_nat. intros E.
  assert (Hn : Nat.to_uint n <> Decimal.Nil).
  { rewrite <- (Unsigned.of_to n) at 1. rewrite Unsigned.to_of. apply unorm_nonnil. }
  destruct (Nat.to_uint n); simpl in E; congruence.
Qed.

End PyStrFacts.

Import PyStrFacts.

(** ** Column labels *)

Ltac each_char c :=
  destruct c as [[] [] [] [] [] [] [] []]; vm_compute;
  first [reflexivity | discriminate | intros; discriminate].

Lemma lower_name_char c : name_char c = true -> PyStr.lower_char c = c.
Proof. each_char c. Qed.

Lemma sub_name_char c : name_char c = true -> sub_non_alnum c = c.
Proof. each_char c. Qed.

Lemma name_char_sub c : name_char (sub_non_alnum c) = true.
Proof. each_char c. Qed.

Lemma digit_name_char c : PyStr.is_digit c = true -> name_char c = true.
Proof. each_char c. Qed.

Lemma digit_not_underscore c : PyStr.is_digit c = true -> PyStr.is_underscore c = false.
Proof. each_char c. Qed.

Lemma starts_collapse s :
  starts PyStr.is_underscore (collapse_underscores s) = starts PyStr.is_underscore s.
Proof.
  induction s as [|c r IH]; simpl; [reflexivity|].
  fold (starts PyStr.is_underscore r).
  destruct (PyStr.is_underscore c) eqn:Ec, (starts PyStr.is_underscore r) eqn:Er;
    simpl; auto; congruence.
Qed.

Lemma is_empty_collapse s : PyStr.is_empty (collapse_underscores s) = PyStr.is_empty s.
Proof.
  induction s as [|c r IH]; simpl; [reflexivity|].
  destruct (PyStr.is_underscore c && _) eqn:E; [|reflexivity].
  rewrite IH. destruct r; [|reflexivity]. rewrite andb_false_r in E. discriminate.
Qed.

Lemma ends_collapse s :
  ends PyStr.is_underscore (collapse_underscores s) = ends PyStr.is_underscore s.
Proof.
  induction s as [|c r IH]; simpl; [reflexivity|].
  destruct (PyStr.is_underscore c && _) eqn:E.
  - rewrite IH. destruct r; [|reflexivity]. rewrite andb_false_r in E. discriminate.
  - simpl. rewrite is_empty_collapse, IH. reflexivity.
Qed.

Lemma forallb_collapse q s :
  PyStr.forallb q s = true -> PyStr.forallb q (collapse_underscores s) = true.
Proof.
  induction s as [|c r IH]; simpl; [reflexivity|].
  intros [Hc Hr]%andb_true_iff.
  destruct (PyStr.is_underscore c && _); [auto|]. simpl. rewrite Hc, (IH Hr). reflexivity.
Qed.

Lemma doubled_collapse s : doubled (collapse_underscores s) = false.
Proof.
  induction s as [|c r IH]; simpl; [reflexivity|].
  fold (starts PyStr.is_underscore r).
  destruct (PyStr.is_underscore c && starts PyStr.is_underscore r) eqn:E; [exact IH|].
  simpl. rewrite starts_collapse, E, IH. reflexivity.
Qed.

Lemma collapse_id s : doubled s = false -> collapse_underscores s = s.
Proof.
  induction s as [|c r IH]; simpl; [reflexivity|].
  fold (starts PyStr.is_underscore r).
  intros [E D]%orb_false_iff. rewrite E, (IH D). reflexivity.
Qed.

Lemma doubled_forallb q s :
  (forall c, q c = true -> PyStr.is_underscore c = false) ->
  PyStr.forallb q s = true -> doubled s = false.
Proof.
  intros Hq. induction s as [|c r IH]; simpl; [reflexivity|].
  intros [Hc Hr]%andb_true_iff. rewrite (Hq c Hc), (IH Hr). reflexivity.
Qed.

Lemma doubled_app s t :
  doubled s = false -> ends PyStr.is_underscore s = false -> doubled t = false ->
  doubled (s +:+ t) = false.
Proof.
  intros Hs He Ht. induction s as [|c r IH]; [exact Ht|].
  cbn [doubled] in Hs. apply orb_false_iff in Hs as [E D].
  destruct r as [|d r'].
  - simpl in He. simpl. change (EmptyString +:+ t) with t. rewrite He, Ht. reflexivity.
  - specialize (IH D He). simpl in *. rewrite IH, E. reflexivity.
Qed.

Lemma clean_column_name_normal col : normal (clean_column_name col) = true.
Proof.
  unfold clean_column_name, normal, PyStr.strip, PyStr.lower.
  set (t := PyStr.map sub_non_alnum _).
  rewrite starts_collapse, ends_collapse, doubled_collapse.
  rewrite ends_rstrip, (starts_rstrip _ _ (starts_lstrip _ t)).
  rewrite forallb_collapse; [reflexivity|].
  apply forallb_rstrip, forallb_lstrip, forallb_map, name_char_sub.
Qed.

Lemma normal_inv s :
  normal s = true ->
  PyStr.forallb name_char s = true /\ starts PyStr.is_underscore s = false
  /\ ends PyStr.is_underscore s = false /\ doubled s = false.
Proof.
  unfold normal. rewrite !andb_true_iff, !negb_true_iff. tauto.
Qed.

(** A label of that shape is left as it is. *)
Lemma clean_column_name_fixed s : normal s = true -> clean_column_name s = s.
Proof.
  intros (Hc & Hs & He & Hd)%normal_inv.
  unfold clean_column_name, PyStr.strip, PyStr.lower.
  rewrite (map_id_on name_char PyStr.lower_char s lower_name_char Hc).
  rewrite (map_id_on name_char sub_non_alnum s sub_name_char Hc).
  rewrite lstrip_id, rstrip_id, collapse_id by assumption. reflexivity.
Qed.

Lemma clean_column_name_idempotent col :
  clean_column_name (clean_column_name col) = clean_column_name col.
Proof. apply clean_column_name_fixed, clean_column_name_normal. Qed.

(** So is a numbered label, when its base is not empty. *)
Lemma numbered_normal col n :
  normal col = true -> col <> EmptyString ->
  normal (col +:+ "_" +:+ PyStr.of_nat n) = true.
Proof.
  intros (Hc & Hs & He & Hd)%normal_inv Hne.
  pose proof (of_nat_digits n) as Hdig. pose proof (of_nat_nonempty n) as Hn.
  assert (Hu : ends PyStr.is_underscore (PyStr.of_nat n) = false)
    by (eapply ends_forallb; [apply digit_not_underscore | exact Hdig]).
  assert (Hdd : doubled (PyStr.of_nat n) = false)
    by (eapply doubled_forallb; [apply digit_not_underscore | exact Hdig]).
  change ("_" +:+ PyStr.of_nat n) with (String "_"%char (PyStr.of_nat n)).
  unfold normal. rewrite forallb_app, Hc, starts_app, Hs by assumption.
  rewrite ends_app by discriminate. rewrite doubled_app; try assumption.
  - simpl.
    rewrite (forallb_weaken _ _ _ digit_name_char Hdig).
    destruct (PyStr.of_nat n) eqn:E; [congruence|]. simpl in *. rewrite Hu.
    reflexivity.
  - simpl. rewrite Hdd.
    destruct (PyStr.of_nat n) as [|d r] eqn:E; [congruence|].
    simpl in Hdig. apply andb_true_iff in Hdig as [Hd0 Hr].
    simpl. rewrite (digit_not_underscore _ Hd0). reflexivity.
Qed.

Lemma number_duplicates_length seen cols :
  length (number_duplicates seen cols) = length cols.
Proof.
  revert seen. induction cols as [|col rest IH]; intros seen; simpl; [reflexivity|].
  destruct (seen !! col); simpl; rewrite IH; reflexivity.
Qed.

Lemma new_columns_length cols : length (new_columns cols) = length cols.
Proof. unfold new_columns. rewrite number_duplicates_length. apply length_map. Qed.

(** Labels that are new to [seen] and differ from one another go through
    the loop unchanged. *)
Lemma number_duplicates_distinct (seen : gmap string nat) cols :
  NoDup cols -> (forall col, col ∈ cols -> seen !! col = None) ->
  number_duplicates seen cols = cols.
Proof.
  intros Hnd. revert seen.
  induction Hnd as [|col rest Hnotin Hnd IH]; intros seen Hseen; simpl; [reflexivity|].
  rewrite (Hseen col) by apply list_elem_of_here. f_equal.
  apply IH. intros c Hc. rewrite lookup_insert_ne.
  - apply Hseen. apply list_elem_of_further. exact Hc.
  - intros ->. contradiction.
Qed.

Lemma map_clean_fixed cols :
  Forall (fun col => normal col = true) cols -> List.map clean_column_name cols = cols.
Proof.
  induction 1 as [|col rest Hn Hall IH]; simpl; [reflexivity|].
  rewrite (clean_column_name_fixed _ Hn), IH. reflexivity.
Qed.

Lemma count_true_cons {A} (p : A -> bool) x l :
  count_true p (x :: l) = (if p x then 1 else 0) + count_true p l.
Proof. unfold count_true. simpl. destruct (p x); reflexivity. Qed.

(** The loop numbers the empty label only when it meets it a second
    time: met once at most, every label it gives has the shape of a
    cleaned one. *)
Lemma number_duplicates_normal_once (seen : gmap string nat) cols :
  Forall (fun col => normal col = true) cols ->
  count_true PyStr.is_empty cols = 0
  \/ (seen !! EmptyString = None /\ count_true PyStr.is_empty cols <= 1) ->
  Forall (fun col => normal col = true) (number_duplicates seen cols).
Proof.
  intros Hall. revert seen.
  induction Hall as [|col rest Hn Hall IH]; intros seen Hc; simpl; [constructor|].
  rewrite count_true_cons in Hc.
  destruct (seen !! col) as [n|] eqn:E.
  - assert (Hne : col <> EmptyString).
    { intros ->. destruct Hc as [Hc|[Hs _]]; [simpl in Hc; lia | congruence]. }
    constructor; [apply numbered_normal; assumption|].
    apply IH. destruct col as [|a col']; [congruence|]. simpl in Hc.
    destruct Hc as [Hc|[Hs Hc]]; [left; exact Hc | right; split; [|exact Hc]].
    rewrite lookup_insert_ne; [exact Hs | discriminate].
  - constructor; [exact Hn|]. apply IH.
    destruct col as [|a col']; simpl in Hc.
    + left. destruct Hc as [Hc|[_ Hc]]; lia.
    + destruct Hc as [Hc|[Hs Hc]]; [left; exact Hc | right; split; [|exact Hc]].
      rewrite lookup_insert_ne; [exact Hs | discriminate].
Qed.

Lemma new_columns_fixed cols :
  NoDup (new_columns cols) ->
  count_true PyStr.is_empty (List.map clean_column_name cols) <= 1 ->
  new_columns (new_columns cols) = new_columns cols.
Proof.
  intros Hnd Hone. unfold new_columns at 1.
  rewrite map_clean_fixed.
  - apply number_duplicates_distinct; [exact Hnd|]. intros. apply lookup_empty.
  - apply number_duplicates_normal_once.
    + apply List.Forall_forall. intros col Hin.
      apply in_map_iff in Hin as (raw & <- & _). apply clean_column_name_normal.
    + right. split; [apply lookup_empty | exact Hone].
Qed.

Lemma labels_set_labels names cols :
  length names = length cols -> List.map label (set_labels names cols) = names.
Proof.
  revert cols. induction names as [|n names IH]; intros [|c cols]; simpl;
    try discriminate; try reflexivity.
  intros [= Hl]. rewrite (IH _ Hl). reflexivity.
Qed.

Lemma labels_standardize df :
  labels (standardize_column_names df) = new_columns (labels df).
Proof.
  unfold labels, standardize_column_names. simpl. apply labels_set_labels.
  rewrite new_columns_length. apply length_map.
Qed.

(** C5, amended.  When the labels [standardize_column_names] gives a table
    differ from one another and at most one label of the table cleans to
    the empty string, a second application leaves the labels as the first
    made them. *)
Theorem standardize_column_names_idempotent df :
  NoDup (labels (standardize_column_names df)) ->
  count_true PyStr.is_empty (List.map clean_column_name (labels df)) <= 1 ->
  labels (standardize_column_names (standardize_column_names df))
  = labels (standardize_column_names df).
Proof.
  intros Hnd Hone. rewrite !labels_standardize in *. apply new_columns_fixed; assumption.
Qed.

(** ** The shape of a table through the steps *)

Lemma len_map_values f df : len (map_values f df) = len df.
Proof. reflexivity. Qed.

Lemma labels_map_values f df : labels (map_values f df) = labels df.
Proof. unfold labels, map_values. simpl. rewrite List.map_map. reflexivity. Qed.

Lemma width_map_values f df : width (map_values f df) = width df.
Proof. unfold width, map_values. simpl. apply length_map. Qed.

Lemma select_length_le {A} mask (l : list A) : length (select mask l) <= length l.
Proof.
  revert l. induction mask as [|b mask IH]; intros [|x l]; simpl; try lia.
  specialize (IH l). destruct b; simpl; lia.
Qed.

Lemma set_labels_length names cols :
  length names = length cols -> length (set_labels names cols) = length cols.
Proof.
  revert cols. induction names as [|n names IH]; intros [|c cols]; simpl;
    try discriminate; try reflexivity.
  intros [= Hl]. rewrite (IH _ Hl). reflexivity.
Qed.

Lemma width_standardize df : width (standardize_column_names df) = width df.
Proof.
  unfold width, standardize_column_names. simpl. apply set_labels_length.
  rewrite new_columns_length. apply length_map.
Qed.

Lemma len_drop_duplicates df : len (drop_duplicates df) <= len df.
Proof.
  unfold drop_duplicates. destruct (frame_empty df); [lia|]. unfold len. simpl.
  apply select_length_le.
Qed.

Lemma width_drop_duplicates df : width (drop_duplicates df) = width df.
Proof.
  unfold drop_duplicates. destruct (frame_empty df); [reflexivity|].
  apply (width_map_values _ df).
Qed.

Lemma labels_drop_duplicates df : labels (drop_duplicates df) = labels df.
Proof.
  unfold drop_duplicates. destruct (frame_empty df); [reflexivity|].
  apply (labels_map_values _ df).
Qed.

Lemma width_drop df names : width (drop_columns df names) <= width df.
Proof. unfold width, drop_columns. simpl. apply List.filter_length_le. Qed.

Section PipelineFacts.
Context `{Parsers}.

Lemma fix_data_types_inv df t :
  fix_data_types df = Returned t ->
  NoDup (labels df) /\ t = map_values fix_column df.
Proof.
  unfold fix_data_types. destruct (decide (NoDup (labels df))); [|discriminate].
  intros [= <-]. auto.
Qed.

Lemma clean_dataframe_prune df :
  clean_dataframe df
  = match table_to_prune df with
    | Raised => Raised
    | Returned t =>
        Returned (standardize_categories (remove_sparse_columns t (7 # 10)))
    end.
Proof. unfold clean_dataframe, table_to_prune. destruct (fix_data_types _); reflexivity. Qed.

Lemma table_to_prune_inv df t :
  table_to_prune df = Returned t ->
  let t2 := drop_duplicates (standardize_column_names df) in
  NoDup (new_columns (labels df))
  /\ t = clean_text_data (handle_outliers
           (map_values fix_column (handle_missing_values t2))).
Proof.
  unfold table_to_prune. destruct (fix_data_types _) as [t4|] eqn:E; [|discriminate].
  intros [= <-]. apply fix_data_types_inv in E as [Hnd ->].
  unfold handle_missing_values in Hnd.
  rewrite labels_map_values, labels_drop_duplicates, labels_standardize in Hnd.
  split; [exact Hnd | reflexivity].
Qed.

(** C7.  Whenever [clean_dataframe] returns a table, that table has at
    most as many rows and at most as many columns as the table it was
    given. *)
Theorem clean_dataframe_never_grows df out :
  clean_dataframe df = Returned out ->
  len out <= len df /\ length (columns out) <= length (columns df).
Proof.
  rewrite clean_dataframe_prune.
  destruct (table_to_prune df) as [t|] eqn:E; [|discriminate].
  intros [= <-]. apply table_to_prune_inv in E as [_ ->]. split.
  - unfold standardize_categories, remove_sparse_columns, clean_text_data,
      handle_outliers, handle_missing_values.
    rewrite !len_map_values. unfold drop_columns at 1. unfold len at 1. simpl.
    fold (len (drop_duplicates (standardize_column_names df))).
    etransitivity; [apply len_drop_duplicates | reflexivity].
  - fold (width df).
    fold (width (standardize_categories (remove_sparse_columns
      (clean_text_data (handle_outliers (map_values fix_column
         (handle_missing_values (drop_duplicates (standardize_column_names df))))))
      (7 # 10)))).
    unfold standardize_categories, remove_sparse_columns.
    rewrite width_map_values. etransitivity; [apply width_drop|].
    unfold clean_text_data, handle_outliers, handle_missing_values.
    rewrite !width_map_values, width_drop_duplicates, width_standardize. reflexivity.
Qed.

End PipelineFacts.

(** ** Renaming and de-duplication commute *)

Lemma set_labels_map (g : Column -> Column) names cols :
  (forall n c, g {| label := n; values := values c |}
               = {| label := n; values := values (g c) |}) ->
  List.map g (set_labels names cols) = set_labels names (List.map g cols).
Proof.
  intros Hg. revert cols. induction names as [|n names IH]; intros [|c cols]; simpl;
    try reflexivity.
  rewrite Hg, IH. reflexivity.
Qed.

Lemma set_labels_values {B} (g : Series -> B) names cols :
  length names = length cols ->
  List.map (fun c => g (values c)) (set_labels names cols)
  = List.map (fun c => g (values c)) cols.
Proof.
  revert cols. induction names as [|n names IH]; intros [|c cols]; simpl;
    try discriminate; try reflexivity.
  intros [= Hl]. rewrite (IH _ Hl). reflexivity.
Qed.

Lemma new_labels_fit df : length (new_columns (labels df)) = length (columns df).
Proof. rewrite new_columns_length. apply length_map. Qed.

Lemma duplicated_standardize df :
  duplicated (standardize_column_names df) = duplicated df.
Proof.
  unfold duplicated. f_equal. apply List.map_ext. intros i.
  unfold row, standardize_column_names. simpl.
  apply (set_labels_values (fun s => nth i (cells s) SNull)), new_labels_fit.
Qed.

Lemma frame_empty_standardize df :
  frame_empty (standardize_column_names df) = frame_empty df.
Proof.
  unfold frame_empty. fold (width (standardize_column_names df)).
  rewrite width_standardize. reflexivity.
Qed.

Lemma drop_duplicates_standardize df :
  drop_duplicates (standardize_column_names df)
  = standardize_column_names (drop_duplicates df).
Proof.
  unfold drop_duplicates. rewrite frame_empty_standardize, duplicated_standardize.
  destruct (frame_empty df); [reflexivity|].
  unfold standardize_column_names, labels, map_values. simpl.
  rewrite List.map_map. simpl. f_equal.
  apply set_labels_map. reflexivity.
Qed.

Section Commute.
Context `{Parsers}.

(** The table [clean_dataframe] returns is the one the order of the
    specification would give: the source renames before it de-duplicates,
    and the two steps commute ([drop_duplicates_standardize]).  The two
    orders differ in the tables made on the way, not in the last one. *)
Lemma clean_dataframe_runs_specified_order df :
  clean_dataframe df = steps_in_specified_order df.
Proof.
  unfold clean_dataframe, steps_in_specified_order.
  rewrite drop_duplicates_standardize. reflexivity.
Qed.

End Commute.

(** ** Pruning *)

Lemma labels_drop_columns df names name :
  In name names -> ~ In name (labels (drop_columns df names)).
Proof.
  intros Hin Hout. unfold labels, drop_columns in Hout. simpl in Hout.
  apply in_map_iff in Hout as (c & <- & Hc).
  apply List.filter_In in Hc as [_ Hkeep].
  apply negb_true_iff, bool_decide_eq_false in Hkeep.
  apply Hkeep, list_elem_of_In. exact Hin.
Qed.

Lemma remove_sparse_columns_drops df threshold c :
  In c (columns df) -> sparse df threshold c = true ->
  ~ In (label c) (labels (remove_sparse_columns df threshold)).
Proof.
  intros Hin Hs. apply labels_drop_columns. unfold columns_to_drop.
  apply in_map, List.filter_In. auto.
Qed.

Section Prune.
Context `{Parsers}.

(** C2, amended.  A column is absent from the table [clean_dataframe]
    returns when its missing-value fraction strictly exceeds 0.7 in the
    working table that reaches the pruning step, that is after
    de-duplication, imputation, coercion, capping and text cleaning. *)
Theorem clean_dataframe_prunes_what_is_still_sparse df t out c :
  table_to_prune df = Returned t ->
  clean_dataframe df = Returned out ->
  In c (columns t) ->
  sparse t (7 # 10) c = true ->
  ~ In (label c) (labels out).
Proof.
  intros Ht. rewrite clean_dataframe_prune, Ht. intros [= <-] Hin Hs.
  unfold standardize_categories. rewrite labels_map_values.
  apply remove_sparse_columns_drops; assumption.
Qed.

End Prune.

(** ** A numeric column without a value *)

Lemma in_map_values f df c :
  In c (columns df) ->
  In {| label := label c; values := f (values c) |} (columns (map_values f df)).
Proof. intros Hin. unfold map_values. simpl. apply in_map_iff. eauto. Qed.

Lemma in_set_labels names cols name c :
  In (name, c) (combine names cols) ->
  In {| label := name; values := values c |} (set_labels names cols).
Proof.
  revert cols. induction names as [|n names IH]; intros [|c0 cols]; simpl; try tauto.
  intros [[= -> ->]|Hin]; [left; reflexivity | right; auto].
Qed.

Lemma select_length {A B} mask (l : list A) (l' : list B) :
  length l = length l' -> length (select mask l) = length (select mask l').
Proof.
  revert l l'. induction mask as [|b mask IH]; intros [|x l] [|y l']; simpl;
    try discriminate; try reflexivity.
  intros [= Hl]. destruct b; simpl; rewrite (IH _ _ Hl); reflexivity.
Qed.

Lemma select_forallb {A} (p : A -> bool) mask l :
  List.forallb p l = true -> List.forallb p (select mask l) = true.
Proof.
  revert l. induction mask as [|b mask IH]; intros [|x l]; simpl; auto.
  intros [Hx Hl]%andb_true_iff. destruct b; simpl; [rewrite Hx; simpl|]; auto.
Qed.

Lemma present_all_null {A} (v : list (option A)) :
  List.forallb isnull v = true -> present v = [].
Proof.
  induction v as [|[a|] v IH]; simpl; try discriminate; [reflexivity|].
  intros Hv. unfold present in *. simpl. auto.
Qed.

Lemma count_all_null {A} (v : list (option A)) :
  List.forallb isnull v = true -> count_true isnull v = length v.
Proof.
  unfold count_true. induction v as [|[a|] v IH]; simpl; try discriminate; [reflexivity|].
  intros Hv. rewrite (IH Hv). reflexivity.
Qed.

(** The first row is never a duplicate. *)
Lemma drop_duplicates_keeps_a_row df :
  1 <= len df -> 1 <= len (drop_duplicates df).
Proof.
  intros Hn. unfold drop_duplicates. destruct (frame_empty df); [exact Hn|].
  unfold len in *. destruct (index df) as [|i idx] eqn:E; simpl in Hn; [lia|].
  unfold duplicated, len. simpl. rewrite E. simpl. lia.
Qed.

Lemma whole_exceeds_threshold n : 1 <= n -> ratio_gt (ratio n n) (7 # 10) = true.
Proof.
  intros Hn. unfold ratio. destruct (Nat.eqb_spec n 0) as [->|_]; [lia|].
  unfold ratio_gt, Qle_bool. simpl. apply negb_true_iff, Z.leb_gt.
  rewrite <- (positive_nat_Z (Pos.of_nat n)), Nat2Pos.id by lia. lia.
Qed.

Section Undefined.
Context `{Parsers}.

Lemma table_to_prune_returns df :
  NoDup (new_columns (labels df)) ->
  table_to_prune df
  = Returned (clean_text_data (handle_outliers (map_values fix_column
      (handle_missing_values (drop_duplicates (standardize_column_names df)))))).
Proof.
  intros Hnd. unfold table_to_prune, fix_data_types.
  destruct (decide _) as [_|Hdup]; [reflexivity|].
  exfalso. apply Hdup. unfold handle_missing_values.
  rewrite labels_map_values, labels_drop_duplicates, labels_standardize. exact Hnd.
Qed.

Lemma fill_column_all_null v :
  List.forallb isnull v = true -> fill_column (Float64 v) = Float64 v.
Proof. intros Hv. simpl. rewrite (present_all_null _ Hv). reflexivity. Qed.

Lemma cap_column_all_null v :
  List.forallb isnull v = true -> cap_column (Float64 v) = Float64 v.
Proof. intros Hv. simpl. rewrite (present_all_null _ Hv). reflexivity. Qed.

(** C3, amended.  For a table with at least one row and new labels that
    differ from one another, a float64 column whose cells are all missing
    raises nothing: [clean_dataframe] returns, and the column, which the
    imputation could not fill, is not in the result. *)
Theorem all_missing_numeric_column_is_dropped_silently df name c v :
  In (name, c) (combine (new_columns (labels df)) (columns df)) ->
  values c = Float64 v ->
  List.forallb isnull v = true ->
  length v = len df ->
  1 <= len df ->
  NoDup (new_columns (labels df)) ->
  exists out, clean_dataframe df = Returned out /\ ~ In name (labels out).
Proof.
  intros Hin Hc Hv Hlen Hn Hnd.
  rewrite clean_dataframe_prune, (table_to_prune_returns df Hnd).
  eexists. split; [reflexivity|].
  unfold standardize_categories. rewrite labels_map_values.
  set (t2 := drop_duplicates (standardize_column_names df)).
  assert (Hne : frame_empty (standardize_column_names df) = false).
  { rewrite frame_empty_standardize. unfold frame_empty.
    apply orb_false_iff. split; apply Nat.eqb_neq; [lia|].
    apply in_combine_r in Hin. destruct (columns df); [contradiction | discriminate]. }
  set (keep := List.map negb (duplicated (standardize_column_names df))).
  set (v' := select keep v).
  assert (Hv' : List.forallb isnull v' = true) by (apply select_forallb, Hv).
  assert (Hl' : length v' = len t2).
  { unfold t2, drop_duplicates. rewrite Hne. unfold len. simpl.
    apply select_length. exact Hlen. }
  assert (Hin2 : In {| label := name; values := Float64 v' |} (columns t2)).
  { unfold t2, drop_duplicates. rewrite Hne.
    apply in_set_labels in Hin. unfold standardize_column_names at 2. simpl.
    apply in_map_iff. eexists. split; [|exact Hin]. simpl. rewrite Hc. reflexivity. }
  apply (in_map_values fill_column) in Hin2. fold (handle_missing_values t2) in Hin2.
  apply (in_map_values fix_column) in Hin2.
  apply (in_map_values cap_column) in Hin2.
  apply (in_map_values clean_text_column) in Hin2.
  cbn [label values] in Hin2.
  rewrite (fill_column_all_null _ Hv') in Hin2. cbn [fix_column is_object] in Hin2.
  rewrite (cap_column_all_null _ Hv') in Hin2. cbn [clean_text_column] in Hin2.
  apply (remove_sparse_columns_drops _ _ _ Hin2).
  unfold sparse. cbn [values isnull_sum].
  rewrite (count_all_null _ Hv'), Hl'.
  apply whole_exceeds_threshold.
  unfold clean_text_data, handle_outliers, handle_missing_values.
  rewrite !len_map_values. apply drop_duplicates_keeps_a_row.
  unfold standardize_column_names, len. simpl. exact Hn.
Qed.

End Undefined.

(** ** Text columns of the result *)

Lemma lower_char_not_upper c : PyStr.is_upper (PyStr.lower_char c) = false.
Proof. each_char c. Qed.

Lemma remove_special_lower_tidy s :
  tidy (remove_special (PyStr.lower s)) = true.
Proof.
  unfold tidy, remove_special, PyStr.lower.
  induction s as [|c r IH]; cbn [PyStr.map PyStr.filter PyStr.forallb]; [reflexivity|].
  destruct (PyStr.is_word (PyStr.lower_char c) || PyStr.is_space (PyStr.lower_char c)) eqn:E;
    [|exact IH].
  cbn [PyStr.forallb]. unfold tidy_char at 1.
  rewrite lower_char_not_upper, E, IH. reflexivity.
Qed.

Lemma clean_text_tidy o : tidy (clean_text o) = true.
Proof. unfold clean_text. apply remove_special_lower_tidy. Qed.

Lemma collapse_rare_object n s v :
  collapse_rare n s = Object v ->
  exists w, s = Object w /\
    v = List.map (fun o => match o with
                           | Some x => if rare n (present w) x then Some "Other" else Some x
                           | None => None
                           end) w.
Proof. destruct s; simpl; intros [= <-]. eauto. Qed.

Lemma clean_text_column_object s w :
  clean_text_column s = Object w ->
  exists u, s = Object u /\ w = List.map (fun o => Some (clean_text o)) u.
Proof. destruct s; simpl; intros [= <-]. eauto. Qed.

(** ** A table without a row *)

Lemma filter_all {A} (p : A -> bool) l :
  (forall x, In x l -> p x = true) -> List.filter p l = l.
Proof.
  induction l as [|x l IH]; simpl; [reflexivity|]. intros Hp.
  rewrite (Hp x) by auto. rewrite IH by auto. reflexivity.
Qed.

Lemma filter_none {A} (p : A -> bool) l :
  (forall x, In x l -> p x = false) -> List.filter p l = [].
Proof.
  induction l as [|x l IH]; simpl; [reflexivity|]. intros Hp.
  rewrite (Hp x) by auto. apply IH. auto.
Qed.

Lemma remove_sparse_columns_no_rows df threshold :
  len df = 0 -> remove_sparse_columns df threshold = df.
Proof.
  intros Hn. unfold remove_sparse_columns, columns_to_drop.
  rewrite (filter_none (sparse df threshold)).
  - unfold drop_columns. simpl. rewrite filter_all; [destruct df; reflexivity|].
    intros c _. reflexivity.
  - intros c _. unfold sparse. rewrite Hn. reflexivity.
Qed.

Lemma drop_duplicates_no_rows df : len df = 0 -> drop_duplicates df = df.
Proof. intros Hn. unfold drop_duplicates, frame_empty. rewrite Hn. reflexivity. Qed.

Section NoRows.
Context `{Parsers}.

(** Without a row the call returns every column, as long as the new
    labels differ from one another. *)
Lemma clean_dataframe_no_rows df :
  len df = 0 -> NoDup (new_columns (labels df)) ->
  exists out, clean_dataframe df = Returned out
    /\ len out = 0 /\ labels out = new_columns (labels df).
Proof.
  intros Hn Hnd. rewrite clean_dataframe_prune, (table_to_prune_returns df Hnd).
  eexists. split; [reflexivity|].
  rewrite remove_sparse_columns_no_rows.
  - unfold standardize_categories, clean_text_data, handle_outliers, handle_missing_values.
    rewrite !len_map_values, !labels_map_values.
    rewrite drop_duplicates_no_rows by exact Hn.
    split; [exact Hn | apply labels_standardize].
  - unfold clean_text_data, handle_outliers, handle_missing_values.
    rewrite !len_map_values. rewrite drop_duplicates_no_rows; exact Hn.
Qed.

End NoRows.

(** ** The call on the heap *)

Lemma bind_returns h0 t o (m : InPlace.M InPlace.ref) (k : InPlace.ref -> InPlace.M InPlace.ref) h :
  returns h0 (Returned t) (m h) ->
  (forall h1 r, h0 `prefix_of` h1 -> owns h0 h1 r -> h1 !! r = Some t ->
                returns h0 o (k r h1)) ->
  returns h0 o (InPlace.bind m k h).
Proof.
  unfold returns, InPlace.bind. destruct (m h) as [h1 [r|]]; simpl; [|tauto].
  intros (Hp & Ho & Hr) Hk. exact (Hk h1 r Hp Ho Hr).
Qed.

Lemma new_returns h0 h t :
  h0 `prefix_of` h -> returns h0 (Returned t) (InPlace.new t h).
Proof.
  intros Hp. unfold returns, InPlace.new, owns. simpl. split; [|split].
  - etransitivity; [exact Hp | apply prefix_app_r; reflexivity].
  - apply prefix_length in Hp. rewrite length_app. simpl. lia.
  - rewrite lookup_app_r by lia. rewrite Nat.sub_diag. reflexivity.
Qed.

Lemma put_returns h0 h r t :
  h0 `prefix_of` h -> owns h0 h r -> returns h0 (Returned t) (InPlace.put r t h).
Proof.
  intros [k ->] [Hlo Hhi]. unfold returns, InPlace.put, owns. simpl.
  rewrite length_insert. split; [|split; [lia|]].
  - rewrite insert_app_r_alt by exact Hlo. apply prefix_app_r. reflexivity.
  - apply list_lookup_insert_eq. exact Hhi.
Qed.

Lemma get_run h r t : h !! r = Some t -> InPlace.get r h = (h, Returned t).
Proof. unfold InPlace.get. intros ->. reflexivity. Qed.

Lemma copy_returns h0 h r t :
  h0 `prefix_of` h -> h !! r = Some t -> returns h0 (Returned t) (InPlace.copy r h).
Proof.
  intros Hp Hr. unfold InPlace.copy, InPlace.bind. rewrite (get_run _ _ _ Hr). apply new_returns, Hp.
Qed.

Lemma method_returns f h0 h r t :
  h0 `prefix_of` h -> h !! r = Some t -> returns h0 (Returned (f t)) (InPlace.method f r h).
Proof.
  intros Hp Hr. unfold InPlace.method, InPlace.bind. rewrite (get_run _ _ _ Hr). apply new_returns, Hp.
Qed.

Lemma assign_returns f h0 h r t :
  h0 `prefix_of` h -> owns h0 h r -> h !! r = Some t ->
  returns h0 (Returned (f t)) (InPlace.assign f r h).
Proof.
  intros Hp Ho Hr. unfold InPlace.assign, InPlace.bind. rewrite (get_run _ _ _ Hr).
  apply put_returns; assumption.
Qed.

Lemma standardize_column_names_returns h0 h r t :
  h0 `prefix_of` h -> h !! r = Some t ->
  returns h0 (Returned (standardize_column_names t))
          (InPlace.standardize_column_names r h).
Proof.
  intros Hp Hr. unfold InPlace.standardize_column_names.
  eapply bind_returns; [apply copy_returns; eassumption|].
  intros h1 r1 Hp1 Ho1 Hr1. apply assign_returns; assumption.
Qed.

Section Call.
Context `{Parsers}.

Lemma fix_data_types_returns h0 h r t :
  h0 `prefix_of` h -> owns h0 h r -> h !! r = Some t ->
  returns h0 (fix_data_types t) (InPlace.fix_data_types r h).
Proof.
  intros Hp Ho Hr. unfold InPlace.fix_data_types, InPlace.bind. rewrite (get_run _ _ _ Hr).
  destruct (fix_data_types t) as [t'|].
  - apply put_returns; assumption.
  - split; [exact Hp | exact I].
Qed.

(** The call ends as [clean_dataframe] on the table says, in a new
    object, and no object of the caller's heap has changed. *)
Lemma clean_dataframe_returns h r df :
  h !! r = Some df ->
  returns h (clean_dataframe df) (InPlace.clean_dataframe r h).
Proof.
  intros Hr. unfold InPlace.clean_dataframe, clean_dataframe.
  eapply bind_returns; [apply copy_returns; [reflexivity | exact Hr]|].
  intros h1 r1 Hp1 Ho1 Hr1.
  eapply bind_returns; [apply standardize_column_names_returns; eassumption|].
  clear h1 r1 Hp1 Ho1 Hr1. intros h1 r1 Hp1 Ho1 Hr1.
  eapply bind_returns; [apply (method_returns drop_duplicates); eassumption|].
  clear h1 r1 Hp1 Ho1 Hr1. intros h1 r1 Hp1 Ho1 Hr1.
  eapply bind_returns; [apply (assign_returns handle_missing_values); eassumption|].
  clear h1 r1 Hp1 Ho1 Hr1. intros h1 r1 Hp1 Ho1 Hr1.
  pose proof (fix_data_types_returns _ _ _ _ Hp1 Ho1 Hr1) as Hfix.
  destruct (fix_data_types _) as [t4|].
  - eapply bind_returns; [exact Hfix|].
    clear h1 r1 Hp1 Ho1 Hr1 Hfix. intros h1 r1 Hp1 Ho1 Hr1.
    eapply bind_returns; [apply (assign_returns handle_outliers); eassumption|].
    clear h1 r1 Hp1 Ho1 Hr1. intros h1 r1 Hp1 Ho1 Hr1.
    eapply bind_returns; [apply (assign_returns clean_text_data); eassumption|].
    clear h1 r1 Hp1 Ho1 Hr1. intros h1 r1 Hp1 Ho1 Hr1.
    eapply bind_returns;
      [apply (method_returns (fun t => remove_sparse_columns t (7 # 10))); eassumption|].
    clear h1 r1 Hp1 Ho1 Hr1. intros h1 r1 Hp1 Ho1 Hr1.
    eapply bind_returns; [apply (assign_returns standardize_categories); eassumption|].
    clear h1 r1 Hp1 Ho1 Hr1. intros h1 r1 Hp1 Ho1 Hr1.
    unfold returns, InPlace.ret. simpl. auto.
  - unfold returns, InPlace.bind in *.
    destruct (InPlace.fix_data_types r1 h1) as [h2 [r2|]]; simpl in *; tauto.
Qed.

(** C8.  After the call, whether it returned or raised, the object the
    caller passed holds the table it held before: labels, rows and
    cells. *)
Theorem clean_dataframe_leaves_the_input h r df :
  h !! r = Some df ->
  (InPlace.clean_dataframe r h).1 !! r = Some df.
Proof.
  intros Hr. destruct (clean_dataframe_returns h r df Hr) as [Hp _].
  eapply prefix_lookup_Some; eassumption.
Qed.

End Call.

(** ** The order of the steps

    The objects a call makes, one after the other, tell the order of its
    steps: the working copy, the copy [standardize_column_names] renames,
    the frame [drop_duplicates] returns, into which the four steps that
    follow assign, and the frame [drop] returns, into which the categories
    are collapsed. *)








Section Order.
Context `{Parsers}.




End Order.

(** ** The claims on the example tables *)

Section Coerced.
Context `{Parsers}.

(** Text that reads as integers leaves [fix_data_types] as timestamps,
    whatever the parser. *)
Lemma fix_column_numeric_text v zs :
  to_numeric v = Some (Int64 zs) ->
  fix_column (Object v) = Datetime64 (List.map ns_of_int zs).
Proof. intros Hv. unfold fix_column. simpl. rewrite Hv. reflexivity. Qed.

End Coerced.

Module Claims.
Import Examples.

#[local] Existing Instance Reference.parsers.

Example scenario_cleaned :
  clean_dataframe scenario
  = Returned
      {| index := [0; 1; 2; 3];
         columns := [column "a_col" (Float64 [Some 1%Q; Some 2%Q; Some 2%Q;
                                              Some (509 # 8)]);
                     column "cat" (Object [Some "x"; Some "x"; Some "y"; Some "x"])] |}.
Proof. vm_compute. reflexivity. Qed.

(** The fallback label of the imputation comes out in small letters. *)
Example fallback_label_lowercased :
  clean_dataframe no_text
  = Returned
      {| index := [0; 1];
         columns := [column "tag" (Object [Some "unknown"; Some "unknown"]);
                     column "id" (Int64 [1; 2]%Z)] |}.
Proof. vm_compute. reflexivity. Qed.

(** C1.  The column [amount] holds text of which every cell reads as an
    integer; the call returns it as timestamps, not as numbers: the
    second [try] of [fix_data_types] runs on the column the first one
    made. *)
Theorem numeric_text_ends_as_datetime :
  clean_dataframe amounts
  = Returned
      {| index := [0; 1; 2];
         columns := [column "amount"
                       (Datetime64 [Some 10%Z; Some 20%Z; Some 30%Z])] |}.
Proof. vm_compute. reflexivity. Qed.

(** C2 as stated fails: three of the four cells of [colour] are missing in
    the input, and [colour] is a column of the result. *)
Lemma sparse_input_column_is_kept :
  In colour (columns mostly_missing)
  /\ sparse mostly_missing (7 # 10) colour = true
  /\ exists out, clean_dataframe mostly_missing = Returned out
                 /\ In "colour" (labels out).
Proof.
  split; [left; reflexivity|]. split; [reflexivity|].
  eexists. split; [vm_compute; reflexivity|]. left. reflexivity.
Qed.

Lemma prunes_what_is_still_sparse_witness :
  ~ In "score" (labels {| index := [0; 1];
                          columns := [column "id" (Int64 [1; 2]%Z)] |}).
Proof.
  apply (clean_dataframe_prunes_what_is_still_sparse no_score
           {| index := [0; 1]; columns := [score; column "id" (Int64 [1; 2]%Z)] |}
           _ score).
  - vm_compute. reflexivity.
  - vm_compute. reflexivity.
  - left. reflexivity.
  - vm_compute. reflexivity.
Defined.

(** C3 as stated fails: [score] is a float64 column without a value, and
    the call returns; no condition is raised for the undefined median. *)
Lemma undefined_median_raises_nothing :
  In score (columns no_score)
  /\ values score = Float64 [None; None]
  /\ clean_dataframe no_score
     = Returned {| index := [0; 1]; columns := [column "id" (Int64 [1; 2]%Z)] |}.
Proof. split; [left; reflexivity|]. split; [reflexivity|]. vm_compute. reflexivity. Qed.

Lemma all_missing_numeric_column_witness :
  exists out, clean_dataframe no_score = Returned out /\ ~ In "score" (labels out).
Proof.
  apply (all_missing_numeric_column_is_dropped_silently no_score "score" score
           [None; None]).
  - left. reflexivity.
  - reflexivity.
  - reflexivity.
  - reflexivity.
  - unfold len. simpl. lia.
  - apply (bool_decide_unpack _). vm_compute. exact I.
Defined.

(** C4.  The labels "a", "a", "a_1" become "a", "a_1", "a_1": the number
    the loop puts on the second label makes it equal to the third, which
    [seen] does not know. *)
Theorem colliding_labels_stay_equal :
  labels (standardize_column_names colliding) = ["a"; "a_1"; "a_1"]
  /\ ~ NoDup (labels (standardize_column_names colliding)).
Proof.
  split; [vm_compute; reflexivity|].
  intros Hnd. apply (bool_decide_pack _) in Hnd. vm_compute in Hnd. exact Hnd.
Qed.

(** C5 as stated fails: the labels "!" and "?" become "" and "_1", and a
    second application turns "_1" into "1". *)
Lemma second_pass_changes_labels :
  labels (standardize_column_names unnamed) = [""; "_1"]
  /\ labels (standardize_column_names (standardize_column_names unnamed)) = [""; "1"]
  /\ labels (standardize_column_names (standardize_column_names unnamed))
     <> labels (standardize_column_names unnamed).
Proof. repeat split; vm_compute; (reflexivity || discriminate). Qed.

(** The labels that collide change under a second application too. *)
Example second_pass_renumbers_collisions :
  labels (standardize_column_names (standardize_column_names colliding))
  = ["a"; "a_1"; "a_1_1"].
Proof. vm_compute. reflexivity. Qed.

(** One label that cleans to the empty string does no harm: "!", "a", "A"
    become "", "a", "a_1", and stay so. *)
Example one_unnamed_labels :
  labels (standardize_column_names one_unnamed) = [""; "a"; "a_1"].
Proof. vm_compute. reflexivity. Qed.

Lemma standardize_column_names_idempotent_witness :
  labels (standardize_column_names (standardize_column_names one_unnamed))
  = labels (standardize_column_names one_unnamed).
Proof.
  apply standardize_column_names_idempotent.
  - apply (bool_decide_unpack _). vm_compute. exact I.
  - vm_compute. lia.
Defined.

Lemma clean_dataframe_never_grows_witness :
  len {| index := [0; 1]; columns := [column "id" (Int64 [1; 2]%Z)] |} <= len no_score
  /\ length (columns {| index := [0; 1]; columns := [column "id" (Int64 [1; 2]%Z)] |})
     <= length (columns no_score).
Proof.
  apply clean_dataframe_never_grows. vm_compute. reflexivity.
Defined.

Lemma clean_dataframe_leaves_the_input_witness :
  (InPlace.clean_dataframe 0 [scenario]).1 !! 0 = Some scenario.
Proof.
  apply clean_dataframe_leaves_the_input. reflexivity.
Defined.



(** C9.  A table without a row whose labels collide: the call raises.  The
    labels are those of C4. *)
Theorem no_rows_colliding_labels_raise :
  len colliding_no_rows = 0 /\ clean_dataframe colliding_no_rows = Raised.
Proof. split; [reflexivity | vm_compute; reflexivity]. Qed.

(** C10 as stated fails: the cell "foo !" comes out as "foo ", which ends
    in whitespace. *)
Lemma text_cell_ends_in_whitespace :
  clean_dataframe notes
  = Returned {| index := [0]; columns := [column "note" (Object [Some "foo "])] |}
  /\ PyStr.strip PyStr.is_space "foo " <> "foo ".
Proof. split; [vm_compute; reflexivity | vm_compute; discriminate]. Qed.

End Claims.

(** ** Numbered labels *)

Lemma numbered_cons c col n : numbered (String c col) n = String c (numbered col n).
Proof. reflexivity. Qed.

Lemma numbered_nil n : numbered EmptyString n = String "_"%char (PyStr.of_nat n).
Proof. reflexivity. Qed.

Lemma looks_numbered_numbered col n : looks_numbered (numbered col n) = true.
Proof.
  induction col as [|c r IH].
  - rewrite numbered_nil. cbn [looks_numbered].
    rewrite of_nat_digits. destruct (PyStr.of_nat n) eqn:E.
    + destruct (of_nat_nonempty n E).
    + reflexivity.
  - rewrite numbered_cons. cbn [looks_numbered]. rewrite IH. apply orb_true_r.
Qed.

Lemma string_of_uint_inj u v :
  NilEmpty.string_of_uint u = NilEmpty.string_of_uint v -> u = v.
Proof.
  revert v. induction u; intros v; destruct v; simpl; intros E; try discriminate;
    try reflexivity; injection E as E; f_equal; auto.
Qed.

Lemma of_nat_inj n m : PyStr.of_nat n = PyStr.of_nat m -> n = m.
Proof. intros E. apply Unsigned.to_uint_inj, string_of_uint_inj, E. Qed.

Lemma no_underscore_app_absurd a d d' :
  no_underscore d = true -> d <> a +:+ String "_"%char d'.
Proof.
  revert d. induction a as [|x a IH]; intros d Hd E; subst d; simpl in Hd.
  - discriminate.
  - apply andb_true_iff in Hd as [_ Hd]. exact (IH _ Hd eq_refl).
Qed.

Lemma split_at_last_underscore a b d d' :
  no_underscore d = true -> no_underscore d' = true ->
  a +:+ String "_"%char d = b +:+ String "_"%char d' -> a = b /\ d = d'.
Proof.
  intros Hd Hd'. revert b. induction a as [|x a IH]; intros [|y b] E; simpl in E.
  - injection E as E. auto.
  - injection E as _ E. destruct (no_underscore_app_absurd _ _ _ Hd E).
  - injection E as _ E. symmetry in E. destruct (no_underscore_app_absurd _ _ _ Hd' E).
  - injection E as -> E. destruct (IH _ E) as [-> ->]. auto.
Qed.

Lemma of_nat_no_underscore n : no_underscore (PyStr.of_nat n) = true.
Proof.
  unfold no_underscore. eapply forallb_weaken; [|apply of_nat_digits].
  intros c Hc. rewrite (digit_not_underscore c Hc). reflexivity.
Qed.

Lemma numbered_inj c k c' k' : numbered c k = numbered c' k' -> c = c' /\ k = k'.
Proof.
  unfold numbered. change ("_" +:+ PyStr.of_nat k) with (String "_"%char (PyStr.of_nat k)).
  change ("_" +:+ PyStr.of_nat k') with (String "_"%char (PyStr.of_nat k')).
  intros E. apply split_at_last_underscore in E as [-> E]; auto using of_nat_no_underscore.
  split; [reflexivity | apply of_nat_inj, E].
Qed.

Lemma in_number_duplicates (seen : gmap string nat) cols x :
  In x (number_duplicates seen cols) ->
  (In x cols /\ seen !! x = None)
  \/ exists col k, In col cols /\ x = numbered col k /\ next_counter seen col <= k.
Proof.
  revert seen. induction cols as [|col rest IH]; intros seen; simpl; [tauto|].
  destruct (seen !! col) as [n|] eqn:E; simpl.
  - intros [<-|Hin].
    + right. exists col, n. unfold next_counter. rewrite E. auto.
    + apply IH in Hin as [[Hin Hx]|(c & k & Hc & -> & Hk)].
      * left. split; [auto|]. destruct (decide (col = x)) as [->|Hne].
        -- rewrite lookup_insert_eq in Hx. discriminate.
        -- rewrite lookup_insert_ne in Hx by exact Hne. exact Hx.
      * right. exists c, k. split; [auto|]. split; [reflexivity|].
        unfold next_counter in *. destruct (decide (col = c)) as [->|Hne].
        -- rewrite lookup_insert_eq in Hk. rewrite E. lia.
        -- rewrite lookup_insert_ne in Hk by exact Hne. exact Hk.
  - intros [<-|Hin].
    + left. auto.
    + apply IH in Hin as [[Hin Hx]|(c & k & Hc & -> & Hk)].
      * left. split; [auto|]. destruct (decide (col = x)) as [->|Hne].
        -- rewrite lookup_insert_eq in Hx. discriminate.
        -- rewrite lookup_insert_ne in Hx by exact Hne. exact Hx.
      * right. exists c, k. split; [auto|]. split; [reflexivity|].
        unfold next_counter in *. destruct (decide (col = c)) as [->|Hne].
        -- rewrite lookup_insert_eq in Hk. rewrite E. exact Hk.
        -- rewrite lookup_insert_ne in Hk by exact Hne. exact Hk.
Qed.

Lemma number_duplicates_NoDup (seen : gmap string nat) cols :
  Forall (fun col => looks_numbered col = false) cols ->
  NoDup (number_duplicates seen cols).
Proof.
  intros Hall. revert seen. induction Hall as [|col rest Hcol Hall IH]; intros seen; simpl.
  - constructor.
  - assert (Hrest : forall x, In x rest -> looks_numbered x = false).
    { intros x Hx. rewrite List.Forall_forall in Hall. auto. }
    destruct (seen !! col) as [n|] eqn:E; apply NoDup_cons; split; try apply IH.
    + rewrite list_elem_of_In. intros Hin.
      apply in_number_duplicates in Hin as [[Hin _]|(c & k & _ & Heq & Hk)].
      * apply Hrest in Hin. fold (numbered col n) in Hin.
        rewrite looks_numbered_numbered in Hin. discriminate.
      * fold (numbered col n) in Heq. apply numbered_inj in Heq as [<- <-].
        unfold next_counter in Hk. rewrite lookup_insert_eq in Hk. lia.
    + rewrite list_elem_of_In. intros Hin.
      apply in_number_duplicates in Hin as [[_ Hx]|(c & k & _ & Heq & _)].
      * rewrite lookup_insert_eq in Hx. discriminate.
      * rewrite Heq, looks_numbered_numbered in Hcol. discriminate.
Qed.

Lemma number_duplicates_repeat (seen : gmap string nat) col k n :
  seen !! col = Some k ->
  number_duplicates seen (repeat col n) = List.map (numbered col) (seq k n).
Proof.
  revert seen k. induction n as [|n IH]; intros seen k Hk; simpl; [reflexivity|].
  rewrite Hk. f_equal. apply IH. apply lookup_insert_eq.
Qed.

(** ** De-duplication *)

Lemma select_map {A B} (f : A -> B) mask l :
  select mask (List.map f l) = List.map f (select mask l).
Proof.
  revert l. induction mask as [|b mask IH]; intros [|x l]; simpl; try reflexivity.
  destruct b; simpl; rewrite IH; reflexivity.
Qed.

Lemma cells_select_rows mask s : cells (select_rows mask s) = select mask (cells s).
Proof. destruct s; simpl; rewrite select_map; reflexivity. Qed.

Lemma in_select {A} mask (l : list A) x : In x (select mask l) -> In x l.
Proof.
  revert l. induction mask as [|b mask IH]; intros [|y l]; simpl; try tauto.
  destruct b; simpl; intros H; [destruct H as [H|H]|]; auto.
Qed.

(** [s[mask]] read through the positions the mask keeps. *)
Lemma select_by_position {A} (d : A) mask l a :
  select mask l
  = List.map (fun i => nth (i - a) l d) (select mask (seq a (length l))).
Proof.
  revert l a. induction mask as [|b mask IH]; intros [|x l] a;
    try reflexivity.
  assert (Htail : select mask l
    = List.map (fun i => nth (i - a) (x :: l) d) (select mask (seq (S a) (length l)))).
  { rewrite (IH l (S a)). apply List.map_ext_in. intros i Hi.
    apply in_select, in_seq in Hi.
    replace (i - a) with (S (i - S a)) by lia. reflexivity. }
  cbn [select length seq]. destruct b; [|exact Htail].
  cbn [List.map]. rewrite Nat.sub_diag. cbn [nth]. f_equal. exact Htail.
Qed.

Lemma map_nth_seq {A B} (f : A -> B) (d : A) l :
  List.map (fun j => f (nth j l d)) (seq 0 (length l)) = List.map f l.
Proof.
  induction l as [|x l IH]; simpl; [reflexivity|]. f_equal.
  rewrite <- seq_shift, List.map_map. exact IH.
Qed.

Lemma length_select_seq {A} mask (l : list A) a :
  length (select mask (seq a (length l))) = length (select mask l).
Proof. apply select_length. apply length_seq. Qed.

Lemma rows_drop_duplicates df :
  rectangular df -> frame_empty df = false ->
  rows (drop_duplicates df)
  = select (List.map negb (duplicated df)) (rows df).
Proof.
  intros Hrect Hne. unfold drop_duplicates. rewrite Hne.
  set (keep := List.map negb (duplicated df)).
  unfold rows at 1. unfold len at 1. cbn [index].
  set (kept := select keep (seq 0 (len df))).
  assert (Hlen : length (select keep (index df)) = length kept).
  { unfold kept, len. symmetry. apply length_select_seq. }
  rewrite Hlen.
  transitivity (List.map (fun j => row df (nth j kept 0)) (seq 0 (length kept))).
  - apply List.map_ext_in. intros j Hj. apply in_seq in Hj.
    unfold row. cbn [columns map_values]. rewrite List.map_map. cbn [values].
    apply List.map_ext_in. intros c Hc.
    rewrite cells_select_rows, (select_by_position SNull keep (cells (values c)) 0).
    fold (series_len (values c)). rewrite (Hrect c Hc). fold kept.
    rewrite (nth_indep _ SNull (nth 0 (cells (values c)) SNull))
      by (rewrite length_map; lia).
    rewrite (map_nth (fun i => nth (i - 0) (cells (values c)) SNull) kept 0 j) at 1.
    rewrite Nat.sub_0_r. reflexivity.
  - rewrite (map_nth_seq (row df) 0 kept). unfold kept, rows. symmetry. apply select_map.
Qed.


(** Rows that [duplicated] does not mark differ from every earlier row. *)
Lemma kept_rows_not_earlier earlier rs x :
  In x (select (List.map negb (duplicated_from earlier rs)) rs) ->
  existsb (row_eqb x) earlier = false.
Proof.
  revert earlier. induction rs as [|r rest IH]; intros earlier; simpl; [tauto|].
  destruct (existsb (row_eqb r) earlier) eqn:E; simpl.
  - intros Hin. apply IH in Hin. simpl in Hin. apply orb_false_iff in Hin. tauto.
  - intros [<-|Hin]; [exact E|].
    apply IH in Hin. simpl in Hin. apply orb_false_iff in Hin. tauto.
Qed.

Lemma kept_rows_distinct earlier rs :
  distinct_rows (select (List.map negb (duplicated_from earlier rs)) rs).
Proof.
  revert earlier. induction rs as [|r rest IH]; intros earlier; simpl; [exact I|].
  destruct (existsb (row_eqb r) earlier); simpl; [apply IH|]. split; [|apply IH].
  intros x Hin. apply kept_rows_not_earlier in Hin. simpl in Hin.
  apply orb_false_iff in Hin. tauto.
Qed.

Lemma distinct_rows_lookup l i j ri rj :
  distinct_rows l -> i < j -> nth_error l i = Some ri -> nth_error l j = Some rj ->
  row_eqb rj ri = false.
Proof.
  revert i j. induction l as [|r rest IH]; intros i j Hd Hij Hi Hj.
  - destruct i; discriminate.
  - destruct Hd as [Hr Hd]. destruct j as [|j]; [lia|]. destruct i as [|i]; simpl in *.
    + injection Hi as <-. apply Hr. eapply nth_error_In, Hj.
    + apply (IH i j); auto. lia.
Qed.

(** Nothing is marked in a list of distinct rows that no earlier row equals. *)
Lemma duplicated_from_distinct earlier rs :
  distinct_rows rs -> (forall x, In x rs -> existsb (row_eqb x) earlier = false) ->
  duplicated_from earlier rs = repeat false (length rs).
Proof.
  revert earlier. induction rs as [|r rest IH]; intros earlier Hd He; simpl; [reflexivity|].
  destruct Hd as [Hr Hd]. rewrite (He r) by (left; reflexivity). f_equal.
  apply IH; [exact Hd|]. intros x Hx. simpl. rewrite (Hr x Hx). apply He. right. exact Hx.
Qed.

Lemma map_negb_repeat n : List.map negb (repeat false n) = repeat true n.
Proof. induction n as [|n IH]; simpl; [reflexivity|]. rewrite IH. reflexivity. Qed.

Lemma select_all {A} (l : list A) n : length l <= n -> select (repeat true n) l = l.
Proof.
  revert n. induction l as [|x l IH]; intros [|n] Hn; simpl in *; try reflexivity; try lia.
  rewrite IH by lia. reflexivity.
Qed.

Lemma select_rows_all s n : series_len s <= n -> select_rows (repeat true n) s = s.
Proof.
  unfold series_len. destruct s; simpl; rewrite ?length_map; intros Hn;
    rewrite select_all by exact Hn; reflexivity.
Qed.

Lemma rectangular_drop_duplicates df : rectangular df -> rectangular (drop_duplicates df).
Proof.
  intros Hrect. unfold drop_duplicates. destruct (frame_empty df); [exact Hrect|].
  intros c Hc. unfold map_values in Hc. cbn [columns] in Hc.
  apply in_map_iff in Hc as (c0 & <- & Hc0). cbn [values].
  unfold series_len, len. cbn [index]. rewrite cells_select_rows.
  apply select_length. apply (Hrect c0 Hc0).
Qed.

Lemma frame_empty_drop_duplicates df :
  frame_empty (drop_duplicates df) = frame_empty df.
Proof.
  destruct (frame_empty df) eqn:E.
  - unfold drop_duplicates. rewrite E. exact E.
  - unfold frame_empty in *. apply orb_false_iff in E as [En Ew].
    apply Nat.eqb_neq in En. fold (width (drop_duplicates df)).
    rewrite width_drop_duplicates. unfold width. rewrite Ew, orb_false_r.
    apply Nat.eqb_neq. pose proof (drop_duplicates_keeps_a_row df). lia.
Qed.

(** X6.  In a rectangular table with at least one row and one column,
    no row that [drop_duplicates] keeps equals a row kept before it. *)
Theorem drop_duplicates_leaves_distinct_rows df i j ri rj :
  rectangular df -> frame_empty df = false -> i < j ->
  nth_error (rows (drop_duplicates df)) i = Some ri ->
  nth_error (rows (drop_duplicates df)) j = Some rj ->
  row_eqb rj ri = false.
Proof.
  intros Hrect Hne Hij. rewrite (rows_drop_duplicates df Hrect Hne).
  apply distinct_rows_lookup; [|exact Hij]. apply kept_rows_distinct.
Qed.

(** X7.  On a rectangular table a second [drop_duplicates] changes
    nothing. *)
Theorem drop_duplicates_idempotent df :
  rectangular df -> drop_duplicates (drop_duplicates df) = drop_duplicates df.
Proof.
  intros Hrect. destruct (frame_empty df) eqn:Hne.
  - unfold drop_duplicates. rewrite Hne, Hne. reflexivity.
  - set (df' := drop_duplicates df).
    assert (Hrect' : rectangular df') by apply rectangular_drop_duplicates, Hrect.
    assert (Hdup : duplicated df' = repeat false (len df')).
    { unfold duplicated. fold (rows df').
      replace (len df') with (length (rows df')) by (unfold rows; rewrite length_map; apply length_seq).
      apply duplicated_from_distinct; [|reflexivity].
      unfold df'. rewrite (rows_drop_duplicates df Hrect Hne). apply kept_rows_distinct. }
    unfold drop_duplicates at 1. fold df'.
    replace (frame_empty df') with false
      by (unfold df'; rewrite frame_empty_drop_duplicates; symmetry; exact Hne).
    rewrite Hdup, map_negb_repeat.
    destruct df' as [idx cols] eqn:Edf. unfold len in *. cbn [index columns map_values] in *.
    f_equal.
    + apply select_all. lia.
    + rewrite <- (List.map_id cols) at 2. apply List.map_ext_in. intros [l v] Hc. cbn.
      f_equal. apply select_rows_all. pose proof (Hrect' _ Hc) as Hv. cbn in Hv.
      rewrite Hv. lia.
Qed.

(** ** Imputation *)

Lemma ascii_compare_lt_trans a b c :
  Ascii.compare a b = Lt -> Ascii.compare b c = Lt -> Ascii.compare a c = Lt.
Proof.
  unfold Ascii.compare. rewrite !N.compare_lt_iff. apply N.lt_trans.
Qed.

Lemma ascii_compare_refl a : Ascii.compare a a = Eq.
Proof. unfold Ascii.compare. apply N.compare_refl. Qed.

Lemma string_compare_lt_trans s t u :
  String.compare s t = Lt -> String.compare t u = Lt -> String.compare s u = Lt.
Proof.
  revert t u. induction s as [|a s IH]; intros [|b t] [|c u]; simpl; try congruence.
  destruct (Ascii.compare a b) eqn:Eab; try discriminate;
    destruct (Ascii.compare b c) eqn:Ebc; try discriminate; intros H1 H2.
  - apply Ascii.compare_eq_iff in Eab as ->. apply Ascii.compare_eq_iff in Ebc as ->.
    rewrite ascii_compare_refl. exact (IH _ _ H1 H2).
  - apply Ascii.compare_eq_iff in Eab as ->. rewrite Ebc. reflexivity.
  - apply Ascii.compare_eq_iff in Ebc as <-. rewrite Eab. reflexivity.
  - rewrite (ascii_compare_lt_trans _ _ _ Eab Ebc). reflexivity.
Qed.

Lemma ltb_trans s t u :
  String.ltb s t = true -> String.ltb t u = true -> String.ltb s u = true.
Proof.
  unfold String.ltb. destruct (String.compare s t) eqn:E1; try discriminate.
  destruct (String.compare t u) eqn:E2; try discriminate.
  rewrite (string_compare_lt_trans _ _ _ E1 E2). reflexivity.
Qed.

Lemma ltb_irrefl s : String.ltb s s = false.
Proof.
  unfold String.ltb. pose proof (String.compare_antisym s s) as E.
  destruct (String.compare s s); try reflexivity; discriminate.
Qed.

(** The step of the fold in [mode_first]: the better of a value and the
    best so far, counts taken in the whole column [l]. *)
Lemma mode_first_spec l suffix m :
  List.fold_right
    (fun x best =>
       match best with
       | None => Some x
       | Some y =>
           if (count_of y l <? count_of x l)%nat
              || ((count_of x l =? count_of y l)%nat && String.ltb x y)
           then Some x else Some y
       end) None suffix = Some m ->
  In m suffix
  /\ (forall x, In x suffix -> count_of x l <= count_of m l)
  /\ (forall x, In x suffix -> count_of x l = count_of m l -> String.ltb x m = false).
Proof.
  revert m. induction suffix as [|x rest IH]; intros m; simpl; [discriminate|].
  destruct (List.fold_right _ None rest) as [y|] eqn:E.
  - destruct (IH y eq_refl) as (Hin & Hmax & Htie).
    destruct ((count_of y l <? count_of x l)%nat
              || ((count_of x l =? count_of y l)%nat && String.ltb x y)) eqn:Ec;
      intros [= <-].
    + apply orb_true_iff in Ec as [Hlt|[Heq Hxy]%andb_true_iff].
      * apply Nat.ltb_lt in Hlt. split; [auto|]. split.
        -- intros z [<-|Hz]; [lia|]. specialize (Hmax z Hz). lia.
        -- intros z [<-|Hz] Hc; [apply ltb_irrefl|]. specialize (Hmax z Hz). lia.
      * apply Nat.eqb_eq in Heq. split; [auto|]. split.
        -- intros z [<-|Hz]; [lia|]. specialize (Hmax z Hz). lia.
        -- intros z [<-|Hz] Hc; [apply ltb_irrefl|].
           destruct (String.ltb z x) eqn:Hzx; [|reflexivity].
           rewrite <- (Htie z Hz ltac:(lia)). symmetry. exact (ltb_trans _ _ _ Hzx Hxy).
    + apply orb_false_iff in Ec as [Hlt Hside]. apply Nat.ltb_ge in Hlt.
      split; [auto|]. split.
      * intros z [<-|Hz]; auto.
      * intros z [<-|Hz] Hc; [|auto].
        apply andb_false_iff in Hside as [Hne|Hxy]; [|exact Hxy].
        apply Nat.eqb_neq in Hne. contradiction.
  - intros [= <-]. destruct rest; [|simpl in E; destruct (List.fold_right _ None rest); [destruct (_ || _)|]; discriminate].
    split; [auto|]. split; intros z [<-|[]]; auto using ltb_irrefl.
Qed.

(** X10.  The value the imputation puts into a text column is a value of
    the column, no value of the column is more frequent, and no equally
    frequent value is smaller. *)
Theorem mode_first_most_frequent l m :
  mode_first l = Some m ->
  In m l
  /\ (forall x, In x l -> count_of x l <= count_of m l)
  /\ (forall x, In x l -> count_of x l = count_of m l -> String.ltb x m = false).
Proof. apply mode_first_spec. Qed.

Lemma mode_first_some l : l <> [] -> exists m, mode_first l = Some m.
Proof.
  destruct l as [|x rest]; [congruence|]. intros _. unfold mode_first. simpl.
  destruct (List.fold_right _ None rest); [destruct (_ || _)|]; eauto.
Qed.

Lemma fillna_no_null {A} (value : A) v : List.forallb (fun o => negb (isnull o)) (fillna value v) = true.
Proof. induction v as [|[a|] v IH]; simpl; auto. Qed.

(** A text column that leaves the imputation was a text column, filled
    with its most frequent value, or with "Unknown" when it had none. *)
Lemma fill_column_object s v :
  fill_column s = Object v ->
  exists w m, s = Object w
    /\ (mode_first (present w) = Some m \/ (present w = [] /\ m = "Unknown"))
    /\ v = fillna m w.
Proof.
  destruct s as [z|f|t|d|b]; simpl; try discriminate.
  - destruct (median (present f)); discriminate.
  - destruct (mode_first (present t)) as [m|] eqn:E; intros [= <-].
    + eauto 6.
    + exists t, "Unknown". split; [reflexivity|]. split; [|reflexivity]. right.
      split; [|reflexivity]. destruct (present t) as [|x l] eqn:P; [reflexivity|].
      destruct (mode_first_some (x :: l)) as [m Hm]; [discriminate | congruence].
Qed.

(** X8.  Every text column that leaves [handle_missing_values] is a text
    column of the table given, under the same label, with each missing
    cell replaced by the most frequent value of the column ([mode()[0]]),
    or by "Unknown" when the column has no value; the other cells are as
    they were, and no cell is missing afterwards. *)
Theorem handle_missing_values_fills_text df c v :
  In c (columns (handle_missing_values df)) ->
  values c = Object v ->
  exists w m, In {| label := label c; values := Object w |} (columns df)
    /\ (mode_first (present w) = Some m \/ (present w = [] /\ m = "Unknown"))
    /\ v = fillna m w
    /\ List.forallb (fun o => negb (isnull o)) v = true.
Proof.
  intros Hc Hv. unfold handle_missing_values, map_values in Hc. cbn [columns] in Hc.
  apply in_map_iff in Hc as (c0 & <- & Hc0). cbn [values label] in *.
  apply fill_column_object in Hv as (w & m & Hw & Hm & ->).
  exists w, m. split; [rewrite <- Hw; destruct c0; exact Hc0|].
  split; [exact Hm|]. split; [reflexivity | apply fillna_no_null].
Qed.

Lemma present_some {A} (a : A) v : present (Some a :: v) = a :: present v.
Proof. reflexivity. Qed.

Lemma present_none {A} (v : list (option A)) : present (None :: v) = present v.
Proof. reflexivity. Qed.

Lemma fillna_keeps {A} (f : A -> scalar) (value : A) v i x :
  nth_error (List.map (opt_scalar f) v) i = Some x -> x <> SNull ->
  nth_error (List.map (opt_scalar f) (fillna value v)) i = Some x.
Proof.
  unfold fillna. rewrite !nth_error_map. destruct (nth_error v i) as [[a|]|]; simpl;
    try discriminate; [auto | intros [= <-]; congruence].
Qed.

(** X9.  The imputation changes missing cells only: in every column a
    cell that holds a value keeps it, where it is, whatever is put into
    the missing ones. *)
Theorem fill_column_keeps_values s i x :
  nth_error (cells s) i = Some x -> x <> SNull ->
  nth_error (cells (fill_column s)) i = Some x.
Proof.
  destruct s as [z|f|t|d|b]; cbn [fill_column]; auto.
  - destruct (median (present f)); cbn [cells]; [apply fillna_keeps | auto].
  - destruct (mode_first (present t)); cbn [cells]; apply fillna_keeps.
Qed.

(** ** Outlier capping *)

Lemma in_present {A} (v : list (option A)) x : In x (present v) <-> In (Some x) v.
Proof.
  induction v as [|[a|] v IH]; rewrite ?present_some, ?present_none; simpl.
  - unfold present. simpl. tauto.
  - rewrite IH. split; intros [H|H]; auto; [left; congruence | injection H; auto].
  - rewrite IH. split; [auto | intros [H|H]; [discriminate | exact H]].
Qed.

Lemma count_null_map_some {A B} (f : A -> B) (v : list (option A)) :
  count_true isnull (List.map (option_map f) v) = count_true isnull v.
Proof.
  unfold count_true. induction v as [|[a|] v IH]; simpl; auto.
Qed.

Lemma count_null_all_some {A} (l : list A) : count_true isnull (List.map Some l) = 0.
Proof. unfold count_true. induction l; simpl; auto. Qed.

Lemma cap_column_shape s :
  series_len (cap_column s) = series_len s /\ isnull_sum (cap_column s) = isnull_sum s.
Proof.
  unfold series_len. destruct s as [v|v|v|v|v]; try (split; reflexivity).
  - cbn [cap_column]. destruct (bounds _) as [[lo hi]|]; [|split; reflexivity].
    destruct (List.forallb _ _); cbn [cells isnull_sum]; rewrite ?length_map;
      rewrite ?count_null_all_some; split; reflexivity.
  - cbn [cap_column]. destruct (bounds _) as [[lo hi]|]; [|split; reflexivity].
    cbn [cells isnull_sum]. rewrite !length_map, count_null_map_some. split; reflexivity.
Qed.

(** ** Text cleaning *)

Lemma lower_char_id c : PyStr.is_upper c = false -> PyStr.lower_char c = c.
Proof. unfold PyStr.lower_char. intros ->. reflexivity. Qed.

Lemma filter_id p s : PyStr.forallb p s = true -> PyStr.filter p s = s.
Proof.
  induction s as [|c r IH]; cbn [PyStr.forallb PyStr.filter]; [reflexivity|].
  intros [Hc Hr]%andb_true_iff. rewrite Hc, (IH Hr). reflexivity.
Qed.

Lemma tidy_lower s : tidy s = true -> PyStr.lower s = s.
Proof.
  unfold tidy, PyStr.lower. apply map_id_on. intros c Hc. apply lower_char_id.
  unfold tidy_char in Hc. apply andb_true_iff in Hc as [Hc _].
  apply negb_true_iff in Hc. exact Hc.
Qed.

Lemma tidy_remove_special s : tidy s = true -> remove_special s = s.
Proof.
  unfold tidy, remove_special. intros Hs. apply filter_id.
  eapply forallb_weaken; [|exact Hs]. intros c Hc. unfold tidy_char in Hc.
  apply andb_true_iff in Hc as [_ Hc]. exact Hc.
Qed.

Lemma tidy_strip s : tidy s = true -> tidy (PyStr.strip PyStr.is_space s) = true.
Proof. unfold tidy, PyStr.strip. intros Hs. apply forallb_rstrip, forallb_lstrip, Hs. Qed.

Lemma clean_text_of_tidy s :
  tidy s = true -> clean_text (Some s) = PyStr.strip PyStr.is_space s.
Proof.
  intros Hs. unfold clean_text, astype_str.
  rewrite (tidy_lower _ (tidy_strip _ Hs)). apply tidy_remove_special, tidy_strip, Hs.
Qed.

Lemma strip_id p s : starts p s = false -> ends p s = false -> PyStr.strip p s = s.
Proof. intros Hs He. unfold PyStr.strip. rewrite lstrip_id, rstrip_id; auto. Qed.

Lemma strip_stripped p s :
  starts p (PyStr.strip p s) = false /\ ends p (PyStr.strip p s) = false.
Proof.
  unfold PyStr.strip. split; [apply starts_rstrip, starts_lstrip | apply ends_rstrip].
Qed.

(** A clean cell is left as it is. *)
Lemma clean_text_fixed_point s :
  tidy s = true ->
  starts PyStr.is_space s = false -> ends PyStr.is_space s = false ->
  clean_text (Some s) = s.
Proof. intros Ht Hs He. rewrite (clean_text_of_tidy s Ht). apply strip_id; assumption. Qed.

(** X16.  Cleaning a text cell a third time changes nothing: the
    second pass, which strips the whitespace the first one uncovered, is
    the last that can change it. *)
Theorem clean_text_settles_in_two o :
  clean_text (Some (clean_text (Some (clean_text o))))
  = clean_text (Some (clean_text o)).
Proof.
  pose proof (clean_text_tidy o) as Ht.
  rewrite (clean_text_of_tidy _ Ht).
  destruct (strip_stripped PyStr.is_space (clean_text o)) as [Hs He].
  apply clean_text_fixed_point; [apply tidy_strip, Ht | exact Hs | exact He].
Qed.

(** ** Text columns of the result, cell by cell *)

Lemma is_space_lower_char c : PyStr.is_space (PyStr.lower_char c) = PyStr.is_space c.
Proof. each_char c. Qed.

Lemma lower_char_idempotent c :
  PyStr.lower_char (PyStr.lower_char c) = PyStr.lower_char c.
Proof. each_char c. Qed.

Lemma is_empty_map f s : PyStr.is_empty (PyStr.map f s) = PyStr.is_empty s.
Proof. destruct s; reflexivity. Qed.

Lemma starts_lower s :
  starts PyStr.is_space (PyStr.lower s) = starts PyStr.is_space s.
Proof. destruct s as [|c r]; [reflexivity|]. apply is_space_lower_char. Qed.

Lemma ends_lower s :
  ends PyStr.is_space (PyStr.lower s) = ends PyStr.is_space s.
Proof.
  unfold PyStr.lower. induction s as [|c r IH]; [reflexivity|].
  cbn [PyStr.map ends]. rewrite is_empty_map, IH, is_space_lower_char. reflexivity.
Qed.

Lemma lower_idempotent s : PyStr.lower (PyStr.lower s) = PyStr.lower s.
Proof.
  unfold PyStr.lower. induction s as [|c r IH]; [reflexivity|].
  cbn [PyStr.map]. rewrite lower_char_idempotent, IH. reflexivity.
Qed.

(** What a character-wise mapping leaves as it is, it leaves as it is
    after a deletion. *)
Lemma map_filter_fixed f p s :
  PyStr.map f s = s -> PyStr.map f (PyStr.filter p s) = PyStr.filter p s.
Proof.
  induction s as [|c r IH]; [reflexivity|]. cbn [PyStr.map PyStr.filter].
  intros [= Hc Hr]. destruct (p c); [|auto]. cbn [PyStr.map]. rewrite Hc, (IH Hr).
  reflexivity.
Qed.

Lemma forallb_filter p s : PyStr.forallb p (PyStr.filter p s) = true.
Proof.
  induction s as [|c r IH]; [reflexivity|]. cbn [PyStr.filter].
  destruct (p c) eqn:E; [|exact IH]. cbn [PyStr.forallb]. rewrite E, IH. reflexivity.
Qed.

(** The text left by a deletion begins as the text did, unless its first
    character went; and ends as it did, unless its last one went. *)
Lemma starts_filter (q p : ascii -> bool) s :
  starts q (PyStr.filter p s) = true -> starts q s = false ->
  starts (fun c => negb (p c)) s = true.
Proof.
  destruct s as [|c r]; [discriminate|]. cbn [PyStr.filter starts].
  destruct (p c); [cbn [starts]; congruence | reflexivity].
Qed.

Lemma ends_all_deleted p s :
  s <> EmptyString -> PyStr.filter p s = EmptyString ->
  ends (fun c => negb (p c)) s = true.
Proof.
  induction s as [|c r IH]; [congruence|]. intros _. cbn [PyStr.filter ends].
  destruct (p c) eqn:E; [discriminate|]. intros Hr.
  destruct r as [|d r']; [reflexivity|]. cbn [PyStr.is_empty].
  apply IH; [discriminate | exact Hr].
Qed.

Lemma ends_cons p c d r : ends p (String c (String d r)) = ends p (String d r).
Proof. reflexivity. Qed.

Lemma ends_filter (q p : ascii -> bool) s :
  ends q (PyStr.filter p s) = true -> ends q s = false ->
  ends (fun c => negb (p c)) s = true.
Proof.
  induction s as [|c r IH]; [discriminate|].
  destruct r as [|d r'].
  - cbn [PyStr.filter ends PyStr.is_empty]. destruct (p c); cbn [ends PyStr.is_empty];
      congruence.
  - rewrite !ends_cons. remember (String d r') as r eqn:Hr.
    cbn [PyStr.filter]. intros Hf Hs.
    destruct (PyStr.filter p r) as [|e f'] eqn:Er.
    + apply ends_all_deleted; [subst r; discriminate | exact Er].
    + apply IH; [|exact Hs]. revert Hf. destruct (p c); [rewrite ends_cons|]; auto.
Qed.

Lemma clean_text_cleaned x : cleaned x (clean_text (Some x)).
Proof.
  unfold cleaned, clean_text, astype_str. cbv zeta.
  set (u := PyStr.lower (PyStr.strip PyStr.is_space x)).
  destruct (strip_stripped PyStr.is_space x) as [Hs He].
  assert (Hus : starts PyStr.is_space u = false) by (unfold u; rewrite starts_lower; exact Hs).
  assert (Hue : ends PyStr.is_space u = false) by (unfold u; rewrite ends_lower; exact He).
  split; [reflexivity|]. split; [apply forallb_filter|]. split.
  - apply map_filter_fixed. apply lower_idempotent.
  - split; intros Hw.
    + exact (starts_filter _ _ u Hw Hus).
    + exact (ends_filter _ _ u Hw Hue).
Qed.

(** The fallback label of the imputation comes out in small letters. *)
Lemma cleaned_unknown s : cleaned "Unknown" s -> s = "unknown".
Proof. intros [-> _]. vm_compute. reflexivity. Qed.

Lemma cap_column_object s v : cap_column s = Object v -> s = Object v.
Proof.
  destruct s as [z|f|t|d|b]; cbn [cap_column]; try discriminate; try (intros E; exact E).
  - destruct (bounds _) as [[lo hi]|]; [|discriminate].
    destruct (List.forallb _ _); discriminate.
  - destruct (bounds _) as [[lo hi]|]; discriminate.
Qed.

Section Text.
Context `{Parsers}.

Lemma to_numeric_not_object v s w : to_numeric v = Some s -> s <> Object w.
Proof.
  unfold to_numeric. destruct (all_some (List.map _ v)); [|discriminate].
  destruct (all_some (List.map as_int _)); intros [= <-]; discriminate.
Qed.

Lemma to_datetime_not_object s s' w : to_datetime s = Some s' -> s' = Object w -> False.
Proof.
  destruct s as [z|f|t|d|b]; cbn [to_datetime].
  - intros [= <-]. discriminate.
  - destruct (all_some _); intros [= <-]; discriminate.
  - destruct (all_some _); intros [= <-]; discriminate.
  - intros [= <-]. discriminate.
  - discriminate.
Qed.

(** A column that is text after [fix_data_types] is the text it was. *)
Lemma fix_column_object s w : fix_column s = Object w -> s = Object w.
Proof.
  unfold fix_column. destruct s as [z|f|t|d|b]; cbn [is_object]; try discriminate.
  destruct (to_numeric t) as [s1|] eqn:E1.
  - destruct (to_datetime s1) as [s2|] eqn:E2.
    + intros E. destruct (to_datetime_not_object _ _ _ E2 E).
    + intros E. destruct (to_numeric_not_object _ _ w E1 E).
  - destruct (to_datetime (Object t)) as [s2|] eqn:E2.
    + intros E. destruct (to_datetime_not_object _ _ _ E2 E).
    + intros E. exact E.
Qed.

Lemma table_to_clean_inv df t :
  table_to_clean df = Returned t ->
  t = handle_outliers (map_values fix_column
        (handle_missing_values (drop_duplicates (standardize_column_names df)))).
Proof.
  unfold table_to_clean, fix_data_types. destruct (decide _); [|discriminate].
  intros [= <-]. reflexivity.
Qed.

Lemma clean_dataframe_clean df :
  clean_dataframe df
  = match table_to_clean df with
    | Raised => Raised
    | Returned t =>
        Returned (standardize_categories
                    (remove_sparse_columns (clean_text_data t) (7 # 10)))
    end.
Proof.
  unfold clean_dataframe, table_to_clean. destruct (fix_data_types _); reflexivity.
Qed.

(** Every cell of a text column that reaches the text cleaning holds a
    string: the imputation has filled the column, and neither the coercion
    nor the capping has touched it. *)
Lemma table_to_clean_text df t c w :
  table_to_clean df = Returned t -> In c (columns t) -> values c = Object w ->
  Forall (fun x => exists x0, x = Some x0) w.
Proof.
  intros Ht Hc Hw. apply table_to_clean_inv in Ht as ->.
  unfold handle_outliers, handle_missing_values, map_values in Hc. cbn [columns] in Hc.
  apply in_map_iff in Hc as (c4 & <- & Hc4). cbn [values] in Hw.
  apply cap_column_object in Hw.
  apply in_map_iff in Hc4 as (c3 & <- & Hc3). cbn [values] in Hw.
  apply fix_column_object in Hw.
  apply in_map_iff in Hc3 as (c2 & <- & _). cbn [values] in Hw.
  apply fill_column_object in Hw as (w2 & m & _ & _ & ->).
  apply List.Forall_forall. intros x Hx. unfold fillna in Hx.
  apply in_map_iff in Hx as ([x0|] & <- & _); eauto.
Qed.

(** C10, amended.  Every text column of the table [clean_dataframe]
    returns is, under its label, a text column [w] of the working table
    that reached the text cleaning, and cell by cell: the cell of [w] held
    a string [x0], the cell of the result holds a string [s], never a
    missing marker, and [s] is "Other" or is [x0] stripped of leading and
    trailing whitespace, put in small letters by [lower] and freed of
    every character that is neither a word character nor whitespace.  Such
    an [s] holds word characters and whitespace only and is left as it is
    by [lower]; it begins (ends) with whitespace only where the first
    (last) character of the stripped text in small letters was deleted.
    The fallback label "Unknown" comes out as "unknown", or as "Other". *)
Theorem text_cells_of_the_result df t out c v :
  table_to_clean df = Returned t ->
  clean_dataframe df = Returned out ->
  In c (columns out) ->
  values c = Object v ->
  exists w, In {| label := label c; values := Object w |} (columns t)
    /\ Forall2 (fun x o =>
                  exists x0 s, x = Some x0 /\ o = Some s
                    /\ (s = "Other" \/ cleaned x0 s)
                    /\ (x0 = "Unknown" -> s = "Other" \/ s = "unknown")) w v.
Proof.
  intros Ht. rewrite clean_dataframe_clean, Ht. intros [= <-] Hc Hv.
  unfold standardize_categories, map_values in Hc. cbn [columns] in Hc.
  apply in_map_iff in Hc as (c6 & <- & Hc6). cbn [values label] in *.
  apply collapse_rare_object in Hv as (w6 & Hw6 & ->).
  unfold remove_sparse_columns, drop_columns in Hc6. cbn [columns] in Hc6.
  apply List.filter_In in Hc6 as [Hc6 _].
  unfold clean_text_data, map_values in Hc6. cbn [columns] in Hc6.
  apply in_map_iff in Hc6 as (c5 & <- & Hc5). cbn [values label] in *.
  apply clean_text_column_object in Hw6 as (w & Hw & ->).
  exists w. split.
  - rewrite <- Hw. destruct c5; exact Hc5.
  - pose proof (table_to_clean_text df t c5 w Ht Hc5 Hw) as Hall.
    match goal with |- context [rare ?n ?p] => generalize (rare n p) end.
    intros r. clear - Hall.
    induction Hall as [|x l [x0 ->] Hall IH]; cbn [List.map]; [constructor|].
    constructor; [|exact IH]. exists x0.
    pose proof (clean_text_cleaned x0) as Hx.
    destruct (r (clean_text (Some x0))); eexists; (split; [reflexivity|]);
      (split; [reflexivity|]); split; auto.
    intros ->. right. apply cleaned_unknown, Hx.
Qed.

End Text.

(** ** Pruning *)

Lemma label_injective cols c c' :
  NoDup (List.map label cols) -> In c cols -> In c' cols -> label c = label c' -> c = c'.
Proof.
  induction cols as [|d cols IH]; simpl; [tauto|].
  intros Hnd. apply NoDup_cons in Hnd as [Hd Hnd]. rewrite list_elem_of_In in Hd.
  intros [<-|Hc] [<-|Hc'] Hl; auto.
  - destruct Hd. rewrite Hl. apply in_map, Hc'.
  - destruct Hd. rewrite <- Hl. apply in_map, Hc.
Qed.

(** X17.  When the labels differ from one another,
    [remove_sparse_columns] keeps the index and exactly the columns whose
    missing fraction does not exceed the threshold, in their order. *)
Theorem remove_sparse_columns_filters df threshold :
  NoDup (labels df) ->
  remove_sparse_columns df threshold
  = {| index := index df;
       columns := List.filter (fun c => negb (sparse df threshold c)) (columns df) |}.
Proof.
  intros Hnd. unfold remove_sparse_columns, drop_columns. f_equal.
  apply List.filter_ext_in. intros c Hc. f_equal.
  destruct (sparse df threshold c) eqn:Es.
  - apply bool_decide_eq_true. apply list_elem_of_In. unfold columns_to_drop.
    apply in_map, List.filter_In. auto.
  - apply bool_decide_eq_false. rewrite list_elem_of_In. unfold columns_to_drop.
    intros Hin. apply in_map_iff in Hin as (c' & Hl & Hc').
    apply List.filter_In in Hc' as [Hc' Hs'].
    rewrite (label_injective _ _ _ Hnd Hc' Hc Hl) in Hs'. congruence.
Qed.

(** At the threshold 0.7: more than seven cells of ten. *)
Lemma sparse_default_iff df c :
  sparse df (7 # 10) c = true
  <-> 0 < len df /\ 7 * len df < 10 * isnull_sum (values c).
Proof.
  unfold sparse, ratio. destruct (Nat.eqb_spec (len df) 0) as [E|E].
  - rewrite E. simpl. split; [discriminate | lia].
  - unfold ratio_gt, Qle_bool. cbn [Qnum Qden]. rewrite negb_true_iff, Z.leb_gt.
    rewrite <- (positive_nat_Z (Pos.of_nat (len df))), Nat2Pos.id by exact E.
    split; [intros H; split; lia | intros [_ H]; lia].
Qed.

(** ** Rare categories *)

Lemma count_of_pos x l : In x l -> 1 <= count_of x l.
Proof.
  unfold count_of, count_true. induction l as [|y l IH]; simpl; [tauto|].
  intros [->|Hin].
  - rewrite String.eqb_refl. simpl. lia.
  - destruct (String.eqb x y); simpl; [lia | auto].
Qed.

Lemma rare_iff total vals x :
  rare total vals x = true <-> 0 < total /\ 100 * count_of x vals < total.
Proof.
  unfold rare, ratio. destruct (Nat.eqb_spec total 0) as [E|E].
  - rewrite E. simpl. split; [discriminate | lia].
  - unfold ratio_lt, Qle_bool. cbn [Qnum Qden]. rewrite negb_true_iff, Z.leb_gt.
    rewrite <- (positive_nat_Z (Pos.of_nat total)), Nat2Pos.id by exact E.
    split; [intros H; split; lia | intros [_ H]; lia].
Qed.

(** X19.  A value left in a text column by [standardize_categories] is
    "Other" or a value of the column that fills at least one hundredth of
    the rows. *)
Theorem collapse_rare_keeps_frequent total v w x :
  collapse_rare total (Object v) = Object w ->
  In (Some x) w ->
  x = "Other" \/ (In (Some x) v /\ total <= 100 * count_of x (present v)).
Proof.
  intros [= <-] Hx. apply in_map_iff in Hx as ([y|] & Hy & Hin); [|discriminate].
  destruct (rare total (present v) y) eqn:Er; injection Hy as Hy;
    [left; symmetry; exact Hy|]. subst y.
  right. split; [exact Hin|].
  destruct (Nat.lt_ge_cases (100 * count_of x (present v)) total) as [Hlt|Hge]; [|exact Hge].
  assert (Hr : rare total (present v) x = true) by (apply rare_iff; lia). congruence.
Qed.

Lemma map_id_in {A} (f : A -> A) l : (forall x, In x l -> f x = x) -> List.map f l = l.
Proof.
  intros Hf. induction l as [|x l IH]; simpl; [reflexivity|].
  rewrite Hf by (left; reflexivity). rewrite IH; [reflexivity|]. intros y Hy. apply Hf. right. exact Hy.
Qed.

(** X20.  A table of at most a hundred rows is returned unchanged by
    [standardize_categories]: no value is below one hundredth. *)
Theorem standardize_categories_small_table df :
  len df <= 100 -> standardize_categories df = df.
Proof.
  intros Hn. unfold standardize_categories, map_values. destruct df as [idx cols].
  cbn [index columns]. f_equal. apply map_id_in. intros [l s] _. cbn. f_equal.
  destruct s as [v|v|v|v|v]; try reflexivity. cbn. f_equal.
  apply map_id_in. intros [x|] Hx; [|reflexivity].
  destruct (rare _ _ x) eqn:Er; [|reflexivity].
  apply rare_iff in Er as [_ Er]. apply in_present, count_of_pos in Hx.
  unfold len in *. cbn in *. lia.
Qed.

(** ** [validate_data] *)

Section Dict.
Context {V : Type}.
Implicit Types (items : list (string * V)) (d : gmap string V).

Lemma fold_put_other items d k :
  ~ In k (List.map fst items) ->
  List.fold_left (fun d kv => <[kv.1 := kv.2]> d) items d !! k = d !! k.
Proof.
  revert d. induction items as [|[k' v'] items IH]; intros d Hk; simpl in *; [reflexivity|].
  rewrite IH by tauto. apply lookup_insert_ne. tauto.
Qed.

Lemma to_dict_last before k (v : V) after :
  ~ In k (List.map fst after) ->
  to_dict (before ++ (k, v) :: after) !! k = Some v.
Proof.
  intros Hk. unfold to_dict. rewrite List.fold_left_app. simpl.
  rewrite fold_put_other by exact Hk. apply lookup_insert_eq.
Qed.

Lemma fold_put_lookup items d k v :
  List.fold_left (fun d kv => <[kv.1 := kv.2]> d) items d !! k = Some v ->
  In (k, v) items \/ d !! k = Some v.
Proof.
  revert d. induction items as [|[k' v'] items IH]; intros d; simpl; [auto|].
  intros H. apply IH in H as [H|H]; [auto|]. simpl in H.
  destruct (decide (k' = k)) as [->|Hne].
  - rewrite lookup_insert_eq in H. injection H as ->. auto.
  - rewrite lookup_insert_ne in H by exact Hne. auto.
Qed.

Lemma to_dict_lookup items k v : to_dict items !! k = Some v -> In (k, v) items.
Proof.
  intros H. apply fold_put_lookup in H as [H|H]; [exact H|].
  rewrite lookup_empty in H. discriminate.
Qed.

Lemma to_dict_is_Some items k : is_Some (to_dict items !! k) <-> In k (List.map fst items).
Proof.
  split.
  - intros [v Hv]. apply to_dict_lookup in Hv. apply in_map_iff. exists (k, v). auto.
  - intros Hin. apply in_map_iff in Hin as ([k' v] & Hk & Hin). simpl in Hk. subst k'.
    revert Hin. induction items as [|kv items IH] using rev_ind; [intros []|].
    intros Hin. apply in_app_iff in Hin.
    destruct (in_dec string_dec k (List.map fst [kv])) as [Hlast|Hnot].
    + destruct kv as [k' v']. simpl in Hlast. destruct Hlast as [->|[]].
      exists v'. apply to_dict_last. simpl. tauto.
    + destruct Hin as [Hin|Hin].
      * destruct (IH Hin) as [w Hw]. exists w.
        unfold to_dict in *. rewrite List.fold_left_app. simpl.
        destruct kv as [k' v']. simpl in *. rewrite lookup_insert_ne by tauto. exact Hw.
      * destruct Hnot. apply (in_map fst) in Hin. exact Hin.
Qed.

End Dict.

Lemma split_at_column cols c :
  NoDup (List.map label cols) -> In c cols ->
  exists before after, cols = (before ++ c :: after)%list
                       /\ ~ In (label c) (List.map label after).
Proof.
  intros Hnd Hin. apply in_split in Hin as (before & after & ->).
  exists before, after. split; [reflexivity|].
  rewrite List.map_app in Hnd. simpl in Hnd.
  apply NoDup_app in Hnd as (_ & _ & Hnd). apply NoDup_cons in Hnd as [Hc _].
  rewrite list_elem_of_In in Hc. exact Hc.
Qed.

Lemma filter_label_unique cols c :
  NoDup (List.map label cols) -> In c cols ->
  List.filter (fun c' => String.eqb (label c') (label c)) cols = [c].
Proof.
  induction cols as [|d cols IH]; simpl; [tauto|].
  intros Hnd. apply NoDup_cons in Hnd as [Hd Hnd]. rewrite list_elem_of_In in Hd.
  intros [->|Hin].
  - rewrite String.eqb_refl. f_equal. apply filter_none. intros c' Hc'.
    apply String.eqb_neq. intros E. apply Hd. rewrite <- E. apply in_map, Hc'.
  - replace (String.eqb (label d) (label c)) with false; [auto|].
    symmetry. apply String.eqb_neq. intros E. apply Hd. rewrite E. apply in_map, Hin.
Qed.

(** X21.  When the labels differ from one another, the summary holds for
    each column its count of missing cells, its dtype and its count of
    different values. *)
Theorem validate_data_entries df c :
  NoDup (labels df) -> In c (columns df) ->
  missing_values (validate_data df) !! label c = Some (isnull_sum (values c))
  /\ data_types (validate_data df) !! label c = Some (dtype_of (values c))
  /\ unique_values (validate_data df) !! label c = Some (OneColumn (nunique (values c))).
Proof.
  intros Hnd Hc. destruct (split_at_column _ c Hnd Hc) as (before & after & E & Hafter).
  unfold validate_data. cbn [missing_values data_types unique_values].
  assert (Hu : getitem_nunique df (label c) = OneColumn (nunique (values c))).
  { unfold getitem_nunique. rewrite (filter_label_unique _ c Hnd Hc). reflexivity. }
  rewrite E, !List.map_app. cbn [List.map]. rewrite Hu.
  repeat split; apply to_dict_last; rewrite List.map_map; exact Hafter.
Qed.

(** X22.  The three dicts of the summary have the labels of the table
    as keys, and no other key. *)
Theorem validate_data_keys df name :
  (is_Some (missing_values (validate_data df) !! name) <-> In name (labels df))
  /\ (is_Some (data_types (validate_data df) !! name) <-> In name (labels df))
  /\ (is_Some (unique_values (validate_data df) !! name) <-> In name (labels df)).
Proof.
  unfold validate_data, labels. cbn [missing_values data_types unique_values].
  repeat split; intros H; first [apply to_dict_is_Some in H | apply to_dict_is_Some];
    rewrite List.map_map in *; exact H.
Qed.

Lemma length_distinct l : length (distinct l) <= length l.
Proof.
  induction l as [|x l IH]; simpl; [lia|]. destruct (existsb _ l); simpl; lia.
Qed.

Lemma count_notnull_opt {A} (f : A -> scalar) (v : list (option A)) :
  (forall a, f a <> SNull) ->
  length (List.filter notnull (List.map (opt_scalar f) v)) + count_true isnull v = length v.
Proof.
  intros Hf. unfold count_true. induction v as [|[a|] v IH]; simpl; [reflexivity| |lia].
  unfold notnull at 1. destruct (f a) eqn:E; simpl; try lia. destruct (Hf a E).
Qed.

Lemma notnull_count s :
  length (List.filter notnull (cells s)) + isnull_sum s = series_len s.
Proof.
  unfold series_len. destruct s as [v|v|v|v|v]; cbn [cells isnull_sum].
  - rewrite Nat.add_0_r. f_equal. apply filter_all. intros x Hx.
    apply in_map_iff in Hx as (z & <- & _). reflexivity.
  - rewrite length_map. apply count_notnull_opt. discriminate.
  - rewrite length_map. apply count_notnull_opt. discriminate.
  - rewrite length_map. apply count_notnull_opt. discriminate.
  - rewrite Nat.add_0_r. f_equal. apply filter_all. intros x Hx.
    apply in_map_iff in Hx as (z & <- & _). reflexivity.
Qed.

(** X23.  The different values [nunique] counts and the missing cells
    together are no more than the cells of the column. *)
Theorem nunique_bound s : nunique s + isnull_sum s <= series_len s.
Proof.
  rewrite <- (notnull_count s). unfold nunique.
  pose proof (length_distinct (List.filter notnull (cells s))). lia.
Qed.

(** ** Rectangular tables *)

Lemma all_some_length {A} (l : list (option A)) l' :
  all_some l = Some l' -> length l' = length l.
Proof.
  revert l'. induction l as [|[a|] l IH]; intros l'; simpl; try discriminate.
  - intros [= <-]. reflexivity.
  - destruct (all_some l) as [r|]; [|discriminate]. intros [= <-]. simpl. f_equal. auto.
Qed.

Lemma series_len_fill_column s : series_len (fill_column s) = series_len s.
Proof.
  unfold series_len. destruct s as [v|v|v|v|v]; try reflexivity; cbn [fill_column].
  - destruct (median _); cbn [cells]; unfold fillna; rewrite ?length_map; reflexivity.
  - destruct (mode_first _); cbn [cells]; unfold fillna; rewrite ?length_map; reflexivity.
Qed.

Lemma series_len_clean_text_column s : series_len (clean_text_column s) = series_len s.
Proof. unfold series_len. destruct s; cbn; rewrite ?length_map; reflexivity. Qed.

Lemma series_len_collapse_rare n s : series_len (collapse_rare n s) = series_len s.
Proof. unfold series_len. destruct s; cbn; rewrite ?length_map; reflexivity. Qed.

Lemma isnull_sum_collapse_rare n s : isnull_sum (collapse_rare n s) = isnull_sum s.
Proof.
  destruct s as [v|v|v|v|v]; try reflexivity. cbn. unfold count_true.
  generalize (rare n (present v)). intros r.
  induction v as [|[x|] v IH]; simpl; auto. destruct (r x); simpl; exact IH.
Qed.

Section Shape.
Context `{Parsers}.

Lemma series_len_to_numeric v s : to_numeric v = Some s -> series_len s = length v.
Proof.
  unfold to_numeric, series_len.
  destruct (all_some (List.map _ v)) as [ns|] eqn:E; [|discriminate].
  apply all_some_length in E. rewrite length_map in E.
  destruct (all_some (List.map as_int ns)) as [zs|] eqn:Ez; intros [= <-]; cbn [cells].
  - apply all_some_length in Ez. rewrite !length_map in *. congruence.
  - rewrite !length_map. exact E.
Qed.

Lemma series_len_to_datetime s s' : to_datetime s = Some s' -> series_len s' = series_len s.
Proof.
  unfold series_len. destruct s as [v|v|v|v|v]; cbn [to_datetime].
  - intros [= <-]. cbn. rewrite !length_map. reflexivity.
  - destruct (all_some _) as [ts|] eqn:E; intros [= <-]. apply all_some_length in E.
    cbn. rewrite !length_map in *. exact E.
  - destruct (all_some _) as [ts|] eqn:E; intros [= <-]. apply all_some_length in E.
    cbn. rewrite !length_map in *. exact E.
  - intros [= <-]. reflexivity.
  - discriminate.
Qed.

Lemma series_len_fix_column s : series_len (fix_column s) = series_len s.
Proof.
  unfold fix_column. destruct s as [v|v|v|v|v]; try reflexivity. cbn [is_object].
  destruct (to_numeric v) as [s1|] eqn:E1.
  - apply series_len_to_numeric in E1.
    destruct (to_datetime s1) as [s2|] eqn:E2.
    + apply series_len_to_datetime in E2. unfold series_len in *. cbn [cells].
      rewrite length_map. congruence.
    + unfold series_len in *. cbn [cells]. rewrite length_map. exact E1.
  - destruct (to_datetime (Object v)) as [s2|] eqn:E2; [|reflexivity].
    apply series_len_to_datetime in E2. exact E2.
Qed.

End Shape.

Lemma rectangular_map_values f df :
  (forall s, series_len (f s) = series_len s) ->
  rectangular df -> rectangular (map_values f df).
Proof.
  intros Hf Hrect c Hc. unfold map_values in Hc. cbn [columns] in Hc.
  apply in_map_iff in Hc as (c0 & <- & Hc0). cbn [values]. rewrite Hf. apply Hrect, Hc0.
Qed.

Lemma in_set_labels_values names cols c :
  In c (set_labels names cols) -> exists c0, In c0 cols /\ values c = values c0.
Proof.
  revert cols. induction names as [|n names IH]; intros [|c0 cols]; simpl; try tauto.
  intros [<-|Hin]; [eauto|]. destruct (IH _ Hin) as (c1 & H1 & H2). eauto.
Qed.

Lemma rectangular_standardize df : rectangular df -> rectangular (standardize_column_names df).
Proof.
  intros Hrect c Hc. unfold standardize_column_names in Hc. cbn [columns] in Hc.
  apply in_set_labels_values in Hc as (c0 & Hc0 & ->). apply Hrect, Hc0.
Qed.

Lemma rectangular_drop_columns df names : rectangular df -> rectangular (drop_columns df names).
Proof.
  intros Hrect c Hc. unfold drop_columns in Hc. cbn [columns] in Hc.
  apply List.filter_In in Hc as [Hc _]. apply Hrect, Hc.
Qed.

Lemma in_select_sublist {A} mask (l : list A) : select mask l `sublist_of` l.
Proof.
  revert l. induction mask as [|b mask IH]; intros [|x l]; simpl;
    try apply sublist_nil_l.
  destruct b; [apply sublist_skip | apply sublist_cons]; apply IH.
Qed.

Lemma map_filter_sublist {A B} (f : A -> B) p (l : list A) :
  List.map f (List.filter p l) `sublist_of` List.map f l.
Proof.
  induction l as [|x l IH]; simpl; [constructor|].
  destruct (p x); simpl; [apply sublist_skip | apply sublist_cons]; exact IH.
Qed.

Lemma kept_column_not_sparse df threshold c :
  In c (columns (remove_sparse_columns df threshold)) -> sparse df threshold c = false.
Proof.
  intros Hc. unfold remove_sparse_columns, drop_columns in Hc. cbn [columns] in Hc.
  apply List.filter_In in Hc as [Hc Hkeep].
  apply negb_true_iff, bool_decide_eq_false in Hkeep.
  destruct (sparse df threshold c) eqn:Es; [|reflexivity].
  destruct Hkeep. apply list_elem_of_In. unfold columns_to_drop.
  apply in_map, List.filter_In. auto.
Qed.

Section Result.
Context `{Parsers}.

(** X24.  When every column of the table has one cell for each row, so
    has every column of the table [clean_dataframe] returns. *)
Theorem clean_dataframe_keeps_rectangular df out :
  rectangular df -> clean_dataframe df = Returned out -> rectangular out.
Proof.
  intros Hrect. rewrite clean_dataframe_prune.
  destruct (table_to_prune df) as [t|] eqn:Et; [|discriminate].
  intros [= <-]. apply table_to_prune_inv in Et as [_ ->].
  apply rectangular_map_values; [apply series_len_collapse_rare|].
  apply rectangular_drop_columns.
  apply rectangular_map_values; [apply series_len_clean_text_column|].
  apply rectangular_map_values; [apply cap_column_shape|].
  apply rectangular_map_values; [apply series_len_fix_column|].
  apply rectangular_map_values; [apply series_len_fill_column|].
  apply rectangular_drop_duplicates, rectangular_standardize, Hrect.
Qed.

Lemma result_column_not_sparse df out c :
  clean_dataframe df = Returned out -> In c (columns out) ->
  sparse out (7 # 10) c = false.
Proof.
  rewrite clean_dataframe_prune.
  destruct (table_to_prune df) as [t|]; [|discriminate].
  intros [= <-] Hc. unfold standardize_categories, map_values in Hc. cbn [columns] in Hc.
  apply in_map_iff in Hc as (c6 & <- & Hc6).
  apply kept_column_not_sparse in Hc6.
  unfold sparse in *. cbn [values]. rewrite isnull_sum_collapse_rare. exact Hc6.
Qed.

(** X26.  The labels of the table [clean_dataframe] returns differ from
    one another and are labels [standardize_column_names] made, in their
    order. *)
Theorem clean_dataframe_result_labels df out :
  clean_dataframe df = Returned out ->
  NoDup (labels out) /\ labels out `sublist_of` new_columns (labels df).
Proof.
  rewrite clean_dataframe_prune.
  destruct (table_to_prune df) as [t|] eqn:Et; [|discriminate].
  intros [= <-]. apply table_to_prune_inv in Et as [Hnd ->].
  assert (Hsub : labels (standardize_categories (remove_sparse_columns
      (clean_text_data (handle_outliers (map_values fix_column (handle_missing_values
         (drop_duplicates (standardize_column_names df)))))) (7 # 10)))
      `sublist_of` new_columns (labels df)).
  { unfold standardize_categories. rewrite labels_map_values.
    etransitivity; [apply map_filter_sublist|]. fold (labels (clean_text_data
      (handle_outliers (map_values fix_column (handle_missing_values
         (drop_duplicates (standardize_column_names df))))))).
    unfold clean_text_data, handle_outliers, handle_missing_values.
    rewrite !labels_map_values, labels_drop_duplicates, labels_standardize. reflexivity. }
  split; [|exact Hsub]. eapply sublist_NoDup; eassumption.
Qed.

(** X27.  The row labels of the table [clean_dataframe] returns are row
    labels of the input, in their order. *)
Theorem clean_dataframe_keeps_row_order df out :
  clean_dataframe df = Returned out -> index out `sublist_of` index df.
Proof.
  rewrite clean_dataframe_prune.
  destruct (table_to_prune df) as [t|] eqn:Et; [|discriminate].
  intros [= <-]. apply table_to_prune_inv in Et as [_ ->]. cbn.
  unfold drop_duplicates. destruct (frame_empty _); cbn; [reflexivity|].
  apply in_select_sublist.
Qed.

(** X28.  On a table [clean_dataframe] returned, every count of missing
    cells that [validate_data] reports is at most seven tenths of the
    rows it reports. *)
Theorem validate_data_after_cleaning df out name m :
  clean_dataframe df = Returned out ->
  missing_values (validate_data out) !! name = Some m ->
  total_rows (validate_data out) = 0 \/ 10 * m <= 7 * total_rows (validate_data out).
Proof.
  intros Hout Hm. unfold validate_data in *. cbn [missing_values total_rows] in *.
  apply to_dict_lookup, in_map_iff in Hm as (c & [= <- <-] & Hc).
  pose proof (result_column_not_sparse df out c Hout Hc) as Hs.
  destruct (Nat.eq_dec (len out) 0) as [E|E]; [left; exact E | right].
  destruct (Nat.le_gt_cases (10 * isnull_sum (values c)) (7 * len out)) as [Hle|Hgt];
    [exact Hle|].
  assert (sparse out (7 # 10) c = true) by (apply sparse_default_iff; lia). congruence.
Qed.

End Result.

(** ** Properties beyond the claims *)

(** X1.  A cleaned label holds only small letters, digits and
    underscores, begins and ends with none, and has no two underscores
    in a row. *)
Theorem clean_column_name_shape col :
  PyStr.forallb name_char (clean_column_name col) = true
  /\ starts PyStr.is_underscore (clean_column_name col) = false
  /\ ends PyStr.is_underscore (clean_column_name col) = false
  /\ doubled (clean_column_name col) = false.
Proof. apply normal_inv, clean_column_name_normal. Qed.

(** X2.  [standardize_column_names] changes labels only: the index and
    the cells of every column, position by position, are those of the
    input. *)
Theorem standardize_column_names_keeps_data df :
  index (standardize_column_names df) = index df
  /\ List.map values (columns (standardize_column_names df))
     = List.map values (columns df).
Proof.
  split; [reflexivity|]. unfold standardize_column_names. cbn [columns].
  apply (set_labels_values (fun s => s)), new_labels_fit.
Qed.

(** X3.  When the cleaned labels differ from one another, none is
    numbered: the new labels are the cleaned ones. *)
Theorem standardize_column_names_distinct_names df :
  NoDup (List.map clean_column_name (labels df)) ->
  labels (standardize_column_names df) = List.map clean_column_name (labels df).
Proof.
  intros Hnd. rewrite labels_standardize. unfold new_columns.
  apply number_duplicates_distinct; [exact Hnd|]. intros. apply lookup_empty.
Qed.

(** X4.  When no cleaned label ends in an underscore and digits, as the
    numbered labels do, the new labels differ from one another. *)
Theorem standardize_column_names_unique df :
  List.forallb (fun l => negb (looks_numbered (clean_column_name l))) (labels df) = true ->
  NoDup (labels (standardize_column_names df)).
Proof.
  intros Hall. rewrite labels_standardize. unfold new_columns.
  apply number_duplicates_NoDup. apply List.Forall_forall. intros col Hcol.
  apply in_map_iff in Hcol as (l & <- & Hl).
  rewrite List.forallb_forall in Hall. apply negb_true_iff, Hall, Hl.
Qed.

(** X5.  Columns whose labels all clean to [col] are named [col],
    [col_1], [col_2], ... in their order. *)
Theorem standardize_column_names_numbers_repeats df col n :
  List.map clean_column_name (labels df) = repeat col (S n) ->
  labels (standardize_column_names df) = col :: List.map (numbered col) (seq 1 n).
Proof.
  intros Hl. rewrite labels_standardize. unfold new_columns. rewrite Hl. simpl.
  rewrite lookup_empty. f_equal. apply number_duplicates_repeat, lookup_insert_eq.
Qed.

Section Coerced2.
Context `{Parsers}.

(** X29.  The call leaves every object of the caller's heap as it was;
    when it returns, the result is an object made during the call that
    holds the table [clean_dataframe] computes, and it raises exactly
    when that function does. *)
Theorem clean_dataframe_returns_a_new_object h r df :
  h !! r = Some df ->
  (forall r0 d, h !! r0 = Some d -> (InPlace.clean_dataframe r h).1 !! r0 = Some d)
  /\ match clean_dataframe df, (InPlace.clean_dataframe r h).2 with
     | Returned out, Returned r' =>
         length h <= r' /\ (InPlace.clean_dataframe r h).1 !! r' = Some out
     | Raised, Raised => True
     | _, _ => False
     end.
Proof.
  intros Hr. destruct (clean_dataframe_returns h r df Hr) as [Hp Hres]. split.
  - intros r0 d Hd. eapply prefix_lookup_Some; eassumption.
  - destruct (clean_dataframe df), ((InPlace.clean_dataframe r h).2); try exact Hres.
    destruct Hres as [[Hown _] Hout]. auto.
Qed.

End Coerced2.

(** X30.  [standardize_column_names] leaves the frame it is given, and
    every other object, as it was, and returns a new object with the new
    labels. *)
Theorem standardize_column_names_leaves_its_argument h r df :
  h !! r = Some df ->
  (forall r0 d, h !! r0 = Some d ->
                (InPlace.standardize_column_names r h).1 !! r0 = Some d)
  /\ exists r', (InPlace.standardize_column_names r h).2 = Returned r'
       /\ length h <= r'
       /\ (InPlace.standardize_column_names r h).1 !! r'
          = Some (standardize_column_names df).
Proof.
  intros Hr.
  destruct (standardize_column_names_returns h h r df (reflexivity h) Hr) as [Hp Hres].
  split.
  - intros r0 d Hd. eapply prefix_lookup_Some; eassumption.
  - destruct ((InPlace.standardize_column_names r h).2) as [r'|]; [|contradiction].
    destruct Hres as [[Hown _] Hout]. eauto.
Qed.

(** X14.  The capping removes no cell and neither fills nor empties one:
    the column keeps its length and its count of missing cells. *)
Theorem cap_column_keeps_missing s :
  series_len (cap_column s) = series_len s /\ isnull_sum (cap_column s) = isnull_sum s.
Proof. apply cap_column_shape. Qed.


(** X18.  A table without a row loses no column in
    [remove_sparse_columns], whatever the threshold: the ratio 0/0
    exceeds nothing. *)
Theorem remove_sparse_columns_without_rows df threshold :
  len df = 0 -> remove_sparse_columns df threshold = df.
Proof. apply remove_sparse_columns_no_rows. Qed.

Section Kept.
Context `{Parsers}.

(** X25.  In the table [clean_dataframe] returns no column has more than
    seven tenths of its cells missing. *)
Theorem clean_dataframe_result_not_sparse df out c :
  clean_dataframe df = Returned out -> In c (columns out) ->
  len out = 0 \/ 10 * isnull_sum (values c) <= 7 * len out.
Proof.
  intros Hout Hc. pose proof (result_column_not_sparse df out c Hout Hc) as Hs.
  destruct (Nat.eq_dec (len out) 0) as [E|E]; [left; exact E | right].
  destruct (Nat.le_gt_cases (10 * isnull_sum (values c)) (7 * len out)) as [Hle|Hgt];
    [exact Hle|].
  assert (sparse out (7 # 10) c = true) by (apply sparse_default_iff; lia). congruence.
Qed.

End Kept.

(** ** The further properties on sample tables *)

Module Checks.
Import Examples Samples.

#[local] Existing Instance Reference.parsers.

Lemma rectangular_scenario : rectangular scenario.
Proof. intros c [<-|[<-|[]]]; reflexivity. Qed.

Lemma rectangular_repeated : rectangular repeated.
Proof. intros c [<-|[<-|[]]]; reflexivity. Qed.

Lemma standardize_column_names_unique_witness :
  NoDup (labels (standardize_column_names scenario)).
Proof. apply standardize_column_names_unique. vm_compute. reflexivity. Defined.

Lemma standardize_column_names_distinct_names_witness :
  labels (standardize_column_names scenario)
  = List.map clean_column_name (labels scenario).
Proof.
  apply standardize_column_names_distinct_names.
  apply (bool_decide_unpack _). vm_compute. exact I.
Defined.

Lemma standardize_column_names_numbers_repeats_witness :
  labels (standardize_column_names three_names)
  = "name" :: List.map (numbered "name") (seq 1 2).
Proof.
  apply standardize_column_names_numbers_repeats. vm_compute. reflexivity.
Defined.

Lemma drop_duplicates_leaves_distinct_rows_witness :
  row_eqb [SInt 2; SStr "b"] [SInt 1; SStr "a"] = false.
Proof.
  apply (drop_duplicates_leaves_distinct_rows repeated 0 1).
  - exact rectangular_repeated.
  - reflexivity.
  - lia.
  - vm_compute. reflexivity.
  - vm_compute. reflexivity.
Defined.

Lemma drop_duplicates_idempotent_witness :
  drop_duplicates (drop_duplicates repeated) = drop_duplicates repeated.
Proof. apply drop_duplicates_idempotent. exact rectangular_repeated. Defined.

Lemma handle_missing_values_fills_text_witness :
  exists w m,
    In {| label := "Cat "; values := Object w |} (columns scenario)
    /\ (mode_first (present w) = Some m \/ (present w = [] /\ m = "Unknown"))
    /\ [Some "x"; Some "x"; Some "y"; Some "x"] = fillna m w
    /\ List.forallb (fun o => negb (isnull o)) [Some "x"; Some "x"; Some "y"; Some "x"]
       = true.
Proof.
  apply (handle_missing_values_fills_text scenario
           (column "Cat " (Object [Some "x"; Some "x"; Some "y"; Some "x"]))).
  - right. left. vm_compute. reflexivity.
  - reflexivity.
Defined.

(** A text column without a value is filled with "Unknown". *)
Example no_text_filled :
  handle_missing_values no_text
  = {| index := [0; 1];
       columns := [column "tag" (Object [Some "Unknown"; Some "Unknown"]);
                   column "id" (Int64 [1; 2]%Z)] |}.
Proof. vm_compute. reflexivity. Qed.

Lemma fill_column_keeps_values_witness :
  nth_error (cells (fill_column (Float64 readings))) 3 = Some (SFloat 100).
Proof.
  apply (fill_column_keeps_values (Float64 readings) 3 (SFloat 100)).
  - reflexivity.
  - discriminate.
Defined.

Lemma mode_first_most_frequent_witness :
  In "a" ["b"; "a"; "b"; "a"; "c"]
  /\ (forall x, In x ["b"; "a"; "b"; "a"; "c"] ->
                count_of x ["b"; "a"; "b"; "a"; "c"] <= count_of "a" ["b"; "a"; "b"; "a"; "c"])
  /\ (forall x, In x ["b"; "a"; "b"; "a"; "c"] ->
                count_of x ["b"; "a"; "b"; "a"; "c"] = count_of "a" ["b"; "a"; "b"; "a"; "c"] ->
                String.ltb x "a" = false).
Proof. apply mode_first_most_frequent. vm_compute. reflexivity. Defined.

Lemma text_cells_of_the_result_witness :
  exists w, In {| label := "note"; values := Object w |} (columns notes)
    /\ Forall2 (fun x o =>
                  exists x0 s, x = Some x0 /\ o = Some s
                    /\ (s = "Other" \/ cleaned x0 s)
                    /\ (x0 = "Unknown" -> s = "Other" \/ s = "unknown"))
               w [Some "foo "].
Proof.
  apply (text_cells_of_the_result notes notes
           {| index := [0]; columns := [column "note" (Object [Some "foo "])] |}
           (column "note" (Object [Some "foo "])) [Some "foo "]).
  - vm_compute. reflexivity.
  - vm_compute. reflexivity.
  - left. reflexivity.
  - reflexivity.
Defined.


Lemma remove_sparse_columns_filters_witness :
  remove_sparse_columns seven_of_ten (7 # 10)
  = {| index := index seven_of_ten;
       columns := List.filter (fun c => negb (sparse seven_of_ten (7 # 10) c))
                              (columns seven_of_ten) |}.
Proof.
  apply remove_sparse_columns_filters. apply (bool_decide_unpack _). vm_compute. exact I.
Defined.

(** Seven missing cells of ten are not more than 0.7: the column stays. *)
Example threshold_itself_is_kept :
  remove_sparse_columns seven_of_ten (7 # 10) = seven_of_ten.
Proof. vm_compute. reflexivity. Qed.

Lemma remove_sparse_columns_without_rows_witness :
  remove_sparse_columns colliding_no_rows (7 # 10) = colliding_no_rows.
Proof. apply remove_sparse_columns_without_rows. reflexivity. Defined.

Lemma collapse_rare_keeps_frequent_witness :
  "a" = "Other"
  \/ (In (Some "a") [Some "a"; Some "b"]
      /\ 2 <= 100 * count_of "a" (present [Some "a"; Some "b"])).
Proof.
  apply (collapse_rare_keeps_frequent 2 [Some "a"; Some "b"] [Some "a"; Some "b"]).
  - vm_compute. reflexivity.
  - left. reflexivity.
Defined.

Lemma standardize_categories_small_table_witness :
  standardize_categories scenario = scenario.
Proof. apply standardize_categories_small_table. unfold len. simpl. lia. Defined.

Lemma validate_data_entries_witness :
  missing_values (validate_data no_score) !! label score = Some (isnull_sum (values score))
  /\ data_types (validate_data no_score) !! label score = Some (dtype_of (values score))
  /\ unique_values (validate_data no_score) !! label score
     = Some (OneColumn (nunique (values score))).
Proof.
  apply validate_data_entries.
  - apply (bool_decide_unpack _). vm_compute. exact I.
  - left. reflexivity.
Defined.

(** The summary of an empty table: no row and three empty dicts. *)
Example validate_data_empty_table :
  validate_data {| index := []; columns := [] |}
  = {| total_rows := 0; missing_values := ∅; data_types := ∅; unique_values := ∅ |}.
Proof. reflexivity. Qed.

Lemma scenario_returns : clean_dataframe scenario = Returned scenario_cleaned_table.
Proof. vm_compute. reflexivity. Qed.

Lemma clean_dataframe_keeps_rectangular_witness : rectangular scenario_cleaned_table.
Proof.
  apply (clean_dataframe_keeps_rectangular scenario).
  - exact rectangular_scenario.
  - exact scenario_returns.
Defined.

Lemma clean_dataframe_result_not_sparse_witness :
  len scenario_cleaned_table = 0
  \/ 10 * isnull_sum (Object [Some "x"; Some "x"; Some "y"; Some "x"])
     <= 7 * len scenario_cleaned_table.
Proof.
  apply (clean_dataframe_result_not_sparse scenario scenario_cleaned_table
           (column "cat" (Object [Some "x"; Some "x"; Some "y"; Some "x"]))).
  - exact scenario_returns.
  - right. left. reflexivity.
Defined.

Lemma clean_dataframe_result_labels_witness :
  NoDup (labels scenario_cleaned_table)
  /\ labels scenario_cleaned_table `sublist_of` new_columns (labels scenario).
Proof. apply clean_dataframe_result_labels. exact scenario_returns. Defined.

Lemma clean_dataframe_keeps_row_order_witness :
  index scenario_cleaned_table `sublist_of` index scenario.
Proof. apply clean_dataframe_keeps_row_order. exact scenario_returns. Defined.

Lemma validate_data_after_cleaning_witness :
  total_rows (validate_data scenario_cleaned_table) = 0
  \/ 10 * 0 <= 7 * total_rows (validate_data scenario_cleaned_table).
Proof.
  apply (validate_data_after_cleaning scenario scenario_cleaned_table "cat").
  - exact scenario_returns.
  - vm_compute. reflexivity.
Defined.

Lemma clean_dataframe_returns_a_new_object_witness :
  (forall r0 d, [scenario] !! r0 = Some d ->
                (InPlace.clean_dataframe 0 [scenario]).1 !! r0 = Some d)
  /\ match clean_dataframe scenario, (InPlace.clean_dataframe 0 [scenario]).2 with
     | Returned out, Returned r' =>
         length [scenario] <= r' /\ (InPlace.clean_dataframe 0 [scenario]).1 !! r' = Some out
     | Raised, Raised => True
     | _, _ => False
     end.
Proof. apply clean_dataframe_returns_a_new_object. reflexivity. Defined.

Lemma standardize_column_names_leaves_its_argument_witness :
  (forall r0 d, [scenario] !! r0 = Some d ->
                (InPlace.standardize_column_names 0 [scenario]).1 !! r0 = Some d)
  /\ exists r', (InPlace.standardize_column_names 0 [scenario]).2 = Returned r'
       /\ length [scenario] <= r'
       /\ (InPlace.standardize_column_names 0 [scenario]).1 !! r'
          = Some (standardize_column_names scenario).
Proof. apply standardize_column_names_leaves_its_argument. reflexivity. Defined.

End Checks.
